(** * mysuspend: Android power management example (mysuspend.c)

    The module is a set of small C functions that do nothing but call
    kernel facilities: timers, delayed work, Android alarms, the pm
    notifier chain, early suspend and wake locks.  They are embedded as
    programs of a small monad whose only effect is a call to the kernel
    ([Call c k]: perform call [c], continue with its integer result).

    Two interpretations are given:
    - [trace] / [result]: the sequence of kernel calls a function performs
      and the value it returns when it runs alone, the kernel's answers
      being read from an environment;
    - [step] / [run_sched]: an interleaving semantics in which timer, work
      and alarm callbacks and the events delivered to the two observers
      run concurrently with a control thread. *)

From Stdlib Require Import ZArith List String Ascii Bool Lia DecimalString.
Import ListNotations.
Local Open Scope string_scope.
Local Open Scope Z_scope.

(** ** Kernel interface *)

(** The three kinds of periodic activity of the module, by backing
    facility: [my_delayed_work], [my_timer], [my_alarm]. *)
Inductive facility : Type := DelayedWork | Timer | Alarm.

Definition facility_eqb (f g : facility) : bool :=
  match f, g with
  | DelayedWork, DelayedWork | Timer, Timer | Alarm, Alarm => true
  | _, _ => false
  end.

(** printk log levels; the module only uses [KERN_INFO]. *)
Inductive loglevel : Type := KERN_INFO.

(** Kernel calls made by the module.  Every call names the module's single
    static object of its facility ([&my_timer], [&my_delayed_work],
    [&my_alarm], [&my_pm_notifier], [&my_early_suspend], [&my_wake_lock]),
    which is therefore left implicit.  Results are C integers (or void,
    for which the answer is ignored). *)
Inductive call : Type :=
  (* clocks and time helpers *)
  | getnstimeofday                       (* answers now.tv_sec *)
  | jiffies_read                         (* read of the global jiffies *)
  | ktime_get_real
  | msecs_to_jiffies (m : Z)
  | ns_to_ktime (ns : Z)
  | ktime_add (a b : Z)
  (* log *)
  | printk (lvl : loglevel) (text : string)
  (* delayed work *)
  | schedule_delayed_work (delay : Z)
  | cancel_delayed_work_sync
  (* timer *)
  | mod_timer (expires : Z)
  | del_timer_sync
  (* Android alarm *)
  | alarm_init (type : string)
  | alarm_start_range (start end_ : Z)
  | alarm_cancel
  (* pm notifier chain *)
  | register_pm_notifier
  | unregister_pm_notifier
  (* early suspend *)
  | register_early_suspend (level : string)
  | unregister_early_suspend
  (* wake lock *)
  | wake_lock_init (type name : string)
  | wake_lock
  | wake_unlock
  | wake_lock_destroy.

(** ** Programs *)

Inductive prog (A : Type) : Type :=
  | Ret (a : A)
  | Call (c : call) (k : Z -> prog A).

Arguments Ret {A} a.
Arguments Call {A} c k.

Fixpoint bind {A B : Type} (p : prog A) (f : A -> prog B) : prog B :=
  match p with
  | Ret a => f a
  | Call c k => Call c (fun r => bind (k r) f)
  end.

(** A single kernel call, returning its result. *)
Definition kcall (c : call) : prog Z := Call c Ret.

Declare Scope prog_scope.
Delimit Scope prog_scope with prog.
Notation "x <- p ;; q" := (bind p (fun x => q))
  (at level 61, p at next level, right associativity) : prog_scope.
Notation "p ;; q" := (bind p (fun _ => q))
  (at level 61, right associativity) : prog_scope.
Local Open Scope prog_scope.

(** ** The kernel's answers when a function runs alone *)

Record env : Type := {
  tv_sec : Z;                     (* seconds reported by getnstimeofday *)
  jiffies : Z;
  real_time : Z;                  (* ktime_get_real, as a scalar ktime *)
  k_msecs_to_jiffies : Z -> Z;
  k_ns_to_ktime : Z -> Z;
  k_ktime_add : Z -> Z -> Z;
  status : call -> Z              (* result of every other call *)
}.

Definition answer (o : env) (c : call) : Z :=
  match c with
  | getnstimeofday => tv_sec o
  | jiffies_read => jiffies o
  | ktime_get_real => real_time o
  | msecs_to_jiffies m => k_msecs_to_jiffies o m
  | ns_to_ktime ns => k_ns_to_ktime o ns
  | ktime_add a b => k_ktime_add o a b
  | _ => status o c
  end.

Fixpoint trace {A : Type} (o : env) (p : prog A) : list call :=
  match p with
  | Ret _ => []
  | Call c k => c :: trace o (k (answer o c))
  end.

Fixpoint result {A : Type} (o : env) (p : prog A) : A :=
  match p with
  | Ret a => a
  | Call c k => result o (k (answer o c))
  end.

(** ** Constants of the kernel headers used by the module *)

(** <linux/time.h> *)
Definition MSEC_PER_SEC : Z := 1000.
Definition NSEC_PER_MSEC : Z := 1000000.

(** Truncation to an unsigned integer type of [w] bits. *)
Definition wrap (w : Z) (x : Z) : Z := x mod 2 ^ w.

(** [1ULL * MSEC_PER_SEC]: arithmetic in unsigned long long. *)
Definition WORK_PERIOD_MS : Z := wrap 64 (1 * MSEC_PER_SEC).
Definition TIMER_PERIOD_MS : Z := wrap 64 (1 * MSEC_PER_SEC).
Definition ALARM_PERIOD_MS : Z := wrap 64 (10 * MSEC_PER_SEC).

(** Event codes of <linux/suspend.h> and acknowledgements of
    <linux/notifier.h>.  The headers are not part of the module, so the
    codes are parameters; a C switch requires its case labels to be
    pairwise distinct. *)
Record notifier_codes : Type := {
  PM_HIBERNATION_PREPARE : Z;
  PM_POST_HIBERNATION : Z;
  PM_SUSPEND_PREPARE : Z;
  PM_POST_SUSPEND : Z;
  NOTIFY_DONE : Z;
  NOTIFY_OK : Z
}.

Definition case_labels_distinct (N : notifier_codes) : bool :=
  negb (PM_HIBERNATION_PREPARE N =? PM_SUSPEND_PREPARE N)
  && negb (PM_HIBERNATION_PREPARE N =? PM_POST_HIBERNATION N)
  && negb (PM_HIBERNATION_PREPARE N =? PM_POST_SUSPEND N)
  && negb (PM_SUSPEND_PREPARE N =? PM_POST_HIBERNATION N)
  && negb (PM_SUSPEND_PREPARE N =? PM_POST_SUSPEND N)
  && negb (PM_POST_HIBERNATION N =? PM_POST_SUSPEND N).

(** The values of the Linux headers. *)
Definition linux_codes : notifier_codes := {|
  PM_HIBERNATION_PREPARE := 1;
  PM_POST_HIBERNATION := 2;
  PM_SUSPEND_PREPARE := 3;
  PM_POST_SUSPEND := 4;
  NOTIFY_DONE := 0;
  NOTIFY_OK := 1
|}.

(** ** The module *)

Definition newline : string := String "010"%char EmptyString.

(** printf's [%lu] on a value already reduced to unsigned long. *)
Definition fmt_lu (v : Z) : string :=
  NilEmpty.string_of_uint (N.to_uint (Z.to_N v)).

(** [MY_DBG(fmt, args...)]: printk(KERN_INFO "[mysuspend] " fmt, args). *)
Definition MY_DBG (formatted : string) : prog unit :=
  kcall (printk KERN_INFO ("[mysuspend] " ++ formatted)) ;; Ret tt.

Section Module.

(** Width of [unsigned long] on the target (32 or 64). *)
Variable BITS_PER_LONG : Z.

(** [now.tv_sec] is a signed long returned as unsigned long. *)
Definition get_my_seconds : prog Z :=
  sec <- kcall getnstimeofday ;;
  Ret (wrap BITS_PER_LONG sec).

(** *** Delayed work *)

(** The argument of msecs_to_jiffies is an unsigned int. *)
Definition my_delayed_work_start : prog unit :=
  d <- kcall (msecs_to_jiffies (wrap 32 WORK_PERIOD_MS)) ;;
  kcall (schedule_delayed_work d) ;;
  Ret tt.

Definition my_delayed_work_stop : prog unit :=
  kcall cancel_delayed_work_sync ;; Ret tt.

Definition my_delayed_work_handler (work : Z) : prog unit :=
  sec <- get_my_seconds ;;
  MY_DBG ("my_delayed_work_handler: " ++ fmt_lu sec ++ newline) ;;
  my_delayed_work_start.

(** *** Timer *)

Definition my_timer_start : prog unit :=
  j <- kcall jiffies_read ;;
  d <- kcall (msecs_to_jiffies (wrap 32 TIMER_PERIOD_MS)) ;;
  kcall (mod_timer (wrap BITS_PER_LONG (j + d))) ;;
  Ret tt.

Definition my_timer_handler (__data : Z) : prog unit :=
  sec <- get_my_seconds ;;
  MY_DBG ("my_timer_handler: " ++ fmt_lu sec ++ newline) ;;
  my_timer_start.

Definition my_timer_stop : prog unit :=
  kcall del_timer_sync ;; Ret tt.

(** *** Alarm *)

Definition my_alarm_shot : prog unit :=
  now <- kcall ktime_get_real ;;
  period <- kcall (ns_to_ktime (wrap 64 (ALARM_PERIOD_MS * NSEC_PER_MSEC))) ;;
  expire <- kcall (ktime_add now period) ;;
  kcall (alarm_start_range expire expire) ;;
  Ret tt.

Definition my_alarm_handler (alarm : Z) : prog unit :=
  sec <- get_my_seconds ;;
  MY_DBG ("my_alarm_handler: " ++ fmt_lu sec ++ newline) ;;
  my_alarm_shot.

Definition my_alarm_start : prog unit :=
  kcall (alarm_init "ANDROID_ALARM_RTC_WAKEUP") ;;
  my_alarm_shot.

Definition my_alarm_stop : prog unit :=
  kcall alarm_cancel ;; Ret tt.

(** *** pm notifier *)

Variable N : notifier_codes.

(** The switch compares [action] with the case labels in turn; the two
    labels of a group share one body. *)
Definition my_pm_handler (nfb action data : Z) : prog Z :=
  if (action =? PM_HIBERNATION_PREPARE N) || (action =? PM_SUSPEND_PREPARE N)
  then MY_DBG ("my_pm_handler: suspend" ++ newline) ;; Ret (NOTIFY_OK N)
  else if (action =? PM_POST_HIBERNATION N) || (action =? PM_POST_SUSPEND N)
  then MY_DBG ("my_pm_handler: resume" ++ newline) ;; Ret (NOTIFY_OK N)
  else Ret (NOTIFY_DONE N).

Definition my_pm_notifier_start : prog unit :=
  kcall register_pm_notifier ;; Ret tt.

Definition my_pm_notifier_stop : prog unit :=
  kcall unregister_pm_notifier ;; Ret tt.

(** *** early suspend *)

Definition my_early_suspend_handler (handler : Z) : prog unit :=
  MY_DBG ("my_early_suspend_handler" ++ newline).

Definition my_early_resume_handler (handler : Z) : prog unit :=
  MY_DBG ("my_early_resume_handler" ++ newline).

Definition my_early_suspend_start : prog unit :=
  kcall (register_early_suspend "EARLY_SUSPEND_LEVEL_DISABLE_FB") ;; Ret tt.

Definition my_early_suspend_stop : prog unit :=
  kcall unregister_early_suspend ;; Ret tt.

(** *** Wake lock *)

Definition my_wake_lock_start : prog unit :=
  kcall (wake_lock_init "WAKE_LOCK_SUSPEND" "my_wake_lock") ;;
  kcall wake_lock ;;
  Ret tt.

Definition my_wake_lock_stop : prog unit :=
  kcall wake_unlock ;;
  kcall wake_lock_destroy ;;
  Ret tt.

(** *** Module entry and exit points *)

Definition my_init : prog Z :=
  my_wake_lock_start ;;
  my_pm_notifier_start ;;
  my_early_suspend_start ;;
  my_delayed_work_start ;;
  my_timer_start ;;
  my_alarm_start ;;
  Ret 0.

Definition my_exit : prog unit :=
  my_alarm_stop ;;
  my_timer_stop ;;
  my_delayed_work_stop ;;
  my_pm_notifier_stop ;;
  my_early_suspend_stop ;;
  my_wake_lock_stop.

(** *** The three activities, by facility *)

Definition activity_start (f : facility) : prog unit :=
  match f with
  | DelayedWork => my_delayed_work_start
  | Timer => my_timer_start
  | Alarm => my_alarm_start
  end.

Definition activity_stop (f : facility) : prog unit :=
  match f with
  | DelayedWork => my_delayed_work_stop
  | Timer => my_timer_stop
  | Alarm => my_alarm_stop
  end.

(** The callback the kernel runs when the facility expires; [arg] is the
    callback's pointer or data argument. *)
Definition activity_handler (f : facility) (arg : Z) : prog unit :=
  match f with
  | DelayedWork => my_delayed_work_handler arg
  | Timer => my_timer_handler arg
  | Alarm => my_alarm_handler arg
  end.

End Module.

(** ** Reading a trace: components and lifecycle steps *)

(** The components owned by the module. *)
Inductive component : Type :=
  | WakeLock
  | SuspendResumeObserver          (* pm notifier *)
  | VisibilityObserver             (* early suspend *)
  | PeriodicActivity (f : facility).

Definition component_eqb (a b : component) : bool :=
  match a, b with
  | WakeLock, WakeLock => true
  | SuspendResumeObserver, SuspendResumeObserver => true
  | VisibilityObserver, VisibilityObserver => true
  | PeriodicActivity f, PeriodicActivity g => facility_eqb f g
  | _, _ => false
  end.

(** The facility a call arms, if any. *)
Definition arm_target (c : call) : option facility :=
  match c with
  | schedule_delayed_work _ => Some DelayedWork
  | mod_timer _ => Some Timer
  | alarm_start_range _ _ => Some Alarm
  | _ => None
  end.

(** The facility a call cancels, if any. *)
Definition cancel_target (c : call) : option facility :=
  match c with
  | cancel_delayed_work_sync => Some DelayedWork
  | del_timer_sync => Some Timer
  | alarm_cancel => Some Alarm
  | _ => None
  end.

(** The component whose kernel object a call acts on; clock reads, time
    helpers and printk act on none. *)
Definition owner (c : call) : option component :=
  match c with
  | schedule_delayed_work _ | cancel_delayed_work_sync =>
      Some (PeriodicActivity DelayedWork)
  | mod_timer _ | del_timer_sync => Some (PeriodicActivity Timer)
  | alarm_init _ | alarm_start_range _ _ | alarm_cancel =>
      Some (PeriodicActivity Alarm)
  | register_pm_notifier | unregister_pm_notifier => Some SuspendResumeObserver
  | register_early_suspend _ | unregister_early_suspend =>
      Some VisibilityObserver
  | wake_lock_init _ _ | wake_lock | wake_unlock | wake_lock_destroy =>
      Some WakeLock
  | _ => None
  end.

Definition is_owned (c : call) : bool :=
  match owner c with Some _ => true | None => false end.

Definition is_arm (c : call) : bool :=
  match arm_target c with Some _ => true | None => false end.

Definition is_activity_call (c : call) : bool :=
  match owner c with Some (PeriodicActivity _) => true | _ => false end.

Definition is_resource_call (c : call) : bool :=
  match owner c with
  | Some WakeLock | Some SuspendResumeObserver | Some VisibilityObserver => true
  | _ => false
  end.

(** The calls of a run that act on the module's kernel objects. *)
Definition effects {A : Type} (o : env) (p : prog A) : list call :=
  filter is_owned (trace o p).

Fixpoint owners (l : list call) : list component :=
  match l with
  | [] => []
  | c :: r =>
      match owner c with
      | Some x => x :: owners r
      | None => owners r
      end
  end.

(** Consecutive calls on one component form one step. *)
Fixpoint compress (l : list component) : list component :=
  match l with
  | [] => []
  | x :: r =>
      match r with
      | [] => [x]
      | y :: _ => if component_eqb x y then compress r else x :: compress r
      end
  end.

Definition steps {A : Type} (o : env) (p : prog A) : list component :=
  compress (owners (trace o p)).

(** The lines a run writes to the kernel log. *)
Fixpoint log_lines (l : list call) : list string :=
  match l with
  | [] => []
  | printk _ text :: r => text :: log_lines r
  | _ :: r => log_lines r
  end.

(** ** Wake lock protocol

    The life of a wake lock as the kernel sees it: initialised, then
    locked and unlocked in alternation, destroyed only while not held.
    [wl_step] refuses a call that breaks the protocol. *)
Inductive wl_state : Type := WlNone | WlInactive | WlHeld | WlDestroyed.

Definition wl_step (s : wl_state) (c : call) : option wl_state :=
  match c with
  | wake_lock_init _ _ =>
      match s with WlNone => Some WlInactive | _ => None end
  | wake_lock =>
      match s with WlInactive => Some WlHeld | _ => None end
  | wake_unlock =>
      match s with WlHeld => Some WlInactive | _ => None end
  | wake_lock_destroy =>
      match s with WlInactive => Some WlDestroyed | _ => None end
  | _ => Some s
  end.

Fixpoint wl_run (s : wl_state) (l : list call) : option wl_state :=
  match l with
  | [] => Some s
  | c :: r =>
      match wl_step s c with
      | Some s' => wl_run s' r
      | None => None
      end
  end.

Definition loglevel_eq_dec (a b : loglevel) : {a = b} + {a <> b}.
Proof. decide equality. Defined.

Definition call_eq_dec (c d : call) : {c = d} + {c <> d}.
Proof.
  decide equality;
    solve [apply Z.eq_dec | apply string_dec | apply loglevel_eq_dec].
Defined.

(** Number of occurrences of a call in a trace. *)
Definition count (c : call) (l : list call) : nat :=
  count_occ call_eq_dec l c.

(** ** Entry points called by the kernel while the module is loaded *)

Inductive upcall : Type :=
  | Expired (f : facility) (arg : Z)
  | PmEvent (nfb action data : Z)
  | EarlySuspend (handler : Z)
  | LateResume (handler : Z).

Definition upcall_prog (BITS_PER_LONG : Z) (N : notifier_codes) (u : upcall)
  : prog unit :=
  match u with
  | Expired f arg => activity_handler BITS_PER_LONG f arg
  | PmEvent nfb action data => my_pm_handler N nfb action data ;; Ret tt
  | EarlySuspend h => my_early_suspend_handler h
  | LateResume h => my_early_resume_handler h
  end.

(** The calls of one life of the module: my_init, any number of upcalls
    (each with the kernel's answers at that time), my_exit. *)
Definition lifetime (BITS_PER_LONG : Z) (N : notifier_codes)
    (o_init : env) (ups : list (env * upcall)) (o_exit : env) : list call :=
  (trace o_init (my_init BITS_PER_LONG)
   ++ flat_map (fun ou => trace (fst ou) (upcall_prog BITS_PER_LONG N (snd ou))) ups
   ++ trace o_exit my_exit)%list.

(** ** Interleaving semantics

    The module's functions run on several threads: the control thread
    loads and unloads the module, the kernel runs the handlers when a
    timer, a work item or an alarm expires, and it calls the pm handler
    and the early suspend handlers when it delivers an event.  The
    programs are the ones defined above; only the kernel objects they act
    on are modelled. *)

(** Modelled from the spec: the kernel's timer, workqueue and alarm
    objects, which are not part of the repository.  Each is a re-armable
    single-shot primitive: armed or not, with at most one firing scheduled
    or executing at any time. *)

Record kobj : Type := {
  armed : option Z;                 (* expiry of the pending firing *)
  running : option (prog unit)      (* rest of the callback in flight *)
}.

Definition idle : kobj := {| armed := None; running := None |}.

(** Modelled from the spec: the two notification channels of the kernel
    (pm notifier chain, early suspend list), which are not part of the
    repository.  [observers x] tells whether the module's observer [x] is
    registered on its channel. *)
Record kernel : Type := {
  clock : env;
  objs : facility -> kobj;
  observers : component -> bool;
  console : list string
}.

Definition set_obj (f : facility) (x : kobj) (K : kernel) : kernel :=
  {| clock := clock K;
     objs := fun g => if facility_eqb g f then x else objs K g;
     observers := observers K;
     console := console K |}.

Definition set_observer (x : component) (b : bool) (K : kernel) : kernel :=
  {| clock := clock K;
     objs := objs K;
     observers := fun y => if component_eqb y x then b else observers K y;
     console := console K |}.

(** A registration that the kernel refuses (negative result) registers
    nothing. *)
Definition register (x : component) (r : Z) (K : kernel) : kernel :=
  if r <? 0 then K else set_observer x true K.

Definition is_some {A : Type} (x : option A) : bool :=
  match x with Some _ => true | None => false end.

Definition arm (f : facility) (expiry : Z) (K : kernel) : kernel :=
  set_obj f {| armed := Some expiry; running := running (objs K f) |} K.

(** Modelled from the spec: the synchronous cancel of the kernel
    ([cancel_delayed_work_sync], [del_timer_sync], [alarm_cancel]), which
    is not part of the repository.  It blocks the caller until any firing
    in flight has completed ([None]: the caller keeps waiting); when it
    returns no firing remains scheduled, and it reports whether one was
    pending. *)
Definition cancel_sync (f : facility) (K : kernel) : option (Z * kernel) :=
  match running (objs K f) with
  | Some _ => None
  | None => Some (if is_some (armed (objs K f)) then 1 else 0, set_obj f idle K)
  end.

(** Modelled from the spec: the effect of one kernel call on the kernel
    objects and the log.  Arming schedules a firing, a synchronous cancel
    is [cancel_sync], registering and unregistering put the observer on
    its channel and take it off, printk appends a line; every other call
    only answers. *)
Definition exec_call (K : kernel) (c : call) : option (Z * kernel) :=
  match c with
  | printk _ text =>
      Some (answer (clock K) c,
            {| clock := clock K; objs := objs K; observers := observers K;
               console := (console K ++ [text])%list |})
  | register_pm_notifier =>
      Some (answer (clock K) c,
            register SuspendResumeObserver (answer (clock K) c) K)
  | unregister_pm_notifier =>
      Some (answer (clock K) c, set_observer SuspendResumeObserver false K)
  | register_early_suspend _ =>
      Some (answer (clock K) c,
            register VisibilityObserver (answer (clock K) c) K)
  | unregister_early_suspend =>
      Some (answer (clock K) c, set_observer VisibilityObserver false K)
  | schedule_delayed_work delay =>
      (* queues the work unless it is already pending *)
      if is_some (armed (objs K DelayedWork)) then Some (0, K)
      else Some (1, arm DelayedWork (jiffies (clock K) + delay) K)
  | mod_timer expires =>
      Some (if is_some (armed (objs K Timer)) then 1 else 0,
            arm Timer expires K)
  | alarm_start_range start _ =>
      Some (answer (clock K) c, arm Alarm start K)
  | cancel_delayed_work_sync => cancel_sync DelayedWork K
  | del_timer_sync => cancel_sync Timer K
  | alarm_cancel => cancel_sync Alarm K
  | _ => Some (answer (clock K) c, K)
  end.

(** The control thread (module load and unload) and what it has done. *)
Record system : Type := {
  kern : kernel;
  control : prog unit;
  done : list call
}.

(** Runs a program to its end on the kernel, without interruption. *)
Fixpoint exec_all {A : Type} (p : prog A) (K : kernel) : option (A * kernel) :=
  match p with
  | Ret a => Some (a, K)
  | Call c k =>
      match exec_call K c with
      | Some (r, K') => exec_all (k r) K'
      | None => None
      end
  end.

(** The observer an event is delivered to; a firing is not an event of a
    notification channel. *)
Definition observer_of (u : upcall) : option component :=
  match u with
  | Expired _ _ => None
  | PmEvent _ _ _ => Some SuspendResumeObserver
  | EarlySuspend _ | LateResume _ => Some VisibilityObserver
  end.

(** What the scheduler may do next. *)
Inductive choice : Type :=
  | Elapse (o : env)                (* time passes; the clocks now read [o] *)
  | Expire (f : facility) (arg : Z) (* the kernel starts the callback of [f] *)
  | Callback (f : facility)         (* the callback of [f] does its next call *)
  | Deliver (u : upcall)            (* the kernel delivers an event *)
  | Control.                        (* the control thread does its next call *)

Section Interleaving.

Variable BITS_PER_LONG : Z.
Variable N : notifier_codes.

(** Modelled from the spec: delivery of an event by a notification channel
    of the kernel.  An event reaches the module's handler only while the
    observer is registered; the kernel serialises a delivery against
    registration and unregistration, so the handler runs as one step. *)
Definition deliver (u : upcall) (K : kernel) : option kernel :=
  match observer_of u with
  | None => None
  | Some x =>
      if observers K x then
        match exec_all (upcall_prog BITS_PER_LONG N u) K with
        | Some (_, K') => Some K'
        | None => None
        end
      else None
  end.

Definition step (ch : choice) (s : system) : option system :=
  let K := kern s in
  match ch with
  | Elapse o =>
      Some {| kern := {| clock := o; objs := objs K;
                         observers := observers K; console := console K |};
              control := control s; done := done s |}
  | Deliver u =>
      match deliver u K with
      | Some K' => Some {| kern := K'; control := control s; done := done s |}
      | None => None
      end
  | Expire f arg =>
      match armed (objs K f), running (objs K f) with
      | Some _, None =>
          Some {| kern :=
                    set_obj f
                      {| armed := None;
                         running := Some (activity_handler BITS_PER_LONG f arg) |}
                      K;
                  control := control s; done := done s |}
      | _, _ => None
      end
  | Callback f =>
      match running (objs K f) with
      | None => None
      | Some (Ret _) =>
          Some {| kern :=
                    set_obj f {| armed := armed (objs K f); running := None |} K;
                  control := control s; done := done s |}
      | Some (Call c k) =>
          match exec_call K c with
          | None => None
          | Some (r, K') =>
              Some {| kern :=
                        set_obj f
                          {| armed := armed (objs K' f);
                             running := Some (k r) |}
                          K';
                      control := control s; done := done s |}
          end
      end
  | Control =>
      match control s with
      | Ret _ => None
      | Call c k =>
          match exec_call K c with
          | None => None
          | Some (r, K') =>
              Some {| kern := K'; control := k r;
                      done := (done s ++ [c])%list |}
          end
      end
  end.

Fixpoint run_sched (sched : list choice) (s : system) : option system :=
  match sched with
  | [] => Some s
  | ch :: rest =>
      match step ch s with
      | Some s' => run_sched rest s'
      | None => None
      end
  end.

(** The kernel loads the module, and unloads it if loading succeeded. *)
Definition module_lifecycle : prog unit :=
  r <- my_init BITS_PER_LONG ;;
  if r =? 0 then my_exit else Ret tt.

End Interleaving.

(** Nothing armed, nothing running, no observer registered, empty log. *)
Definition boot (o : env) (p : prog unit) : system :=
  {| kern := {| clock := o; objs := fun _ => idle;
                observers := fun _ => false; console := [] |};
     control := p;
     done := [] |}.

(** The control thread has completed a synchronous cancel of [f]. *)
Definition stopped (f : facility) (s : system) : bool :=
  existsb (fun c => match cancel_target c with
                    | Some g => facility_eqb f g
                    | None => false
                    end) (done s).

(** No firing of [f] is pending and none executes. *)
Definition quiescent (f : facility) (K : kernel) : bool :=
  negb (is_some (armed (objs K f))) && negb (is_some (running (objs K f))).

(** The scheduler choice starts or continues a firing of [f]. *)
Definition fires (f : facility) (ch : choice) : bool :=
  match ch with
  | Expire g _ | Callback g => facility_eqb f g
  | _ => false
  end.

(** Properties of all the calls a program can make. *)
Fixpoint all_calls {A : Type} (P : call -> Prop) (p : prog A) : Prop :=
  match p with
  | Ret _ => True
  | Call c k => P c /\ forall r, all_calls P (k r)
  end.

Definition never_arms {A : Type} (f : facility) (p : prog A) : Prop :=
  all_calls (fun c => arm_target c <> Some f) p.

(** Once the program has cancelled [f] it never arms [f] again. *)
Fixpoint settled {A : Type} (f : facility) (p : prog A) : Prop :=
  match p with
  | Ret _ => True
  | Call c k =>
      (cancel_target c = Some f -> forall r, never_arms f (k r))
      /\ forall r, settled f (k r)
  end.

(** ** Orders named by the specification *)

Definition spec_start_order : list component :=
  [WakeLock; SuspendResumeObserver; VisibilityObserver;
   PeriodicActivity Timer; PeriodicActivity DelayedWork; PeriodicActivity Alarm].

Definition spec_stop_order : list component :=
  [PeriodicActivity Alarm; PeriodicActivity DelayedWork; PeriodicActivity Timer;
   VisibilityObserver; SuspendResumeObserver; WakeLock].

(** The order in which my_init starts the components. *)
Definition init_order : list component :=
  [WakeLock; SuspendResumeObserver; VisibilityObserver;
   PeriodicActivity DelayedWork; PeriodicActivity Timer; PeriodicActivity Alarm].

(** The order in which my_exit stops them. *)
Definition exit_order : list component :=
  [PeriodicActivity Alarm; PeriodicActivity Timer; PeriodicActivity DelayedWork;
   SuspendResumeObserver; VisibilityObserver; WakeLock].

(** Startup reports a registration failure: whenever a kernel call of
    my_init on a resource or observer answers a negative errno, my_init
    returns non-zero and arms no periodic activity. *)
Definition start_reports_failure (BITS_PER_LONG : Z) : Prop :=
  forall o c,
    In c (trace o (my_init BITS_PER_LONG)) ->
    is_resource_call c = true ->
    answer o c < 0 ->
    result o (my_init BITS_PER_LONG) <> 0
    /\ filter is_arm (trace o (my_init BITS_PER_LONG)) = [].

(** ** Sample kernels *)

(** A kernel with HZ = 100 and scalar ktime, every call succeeding. *)
Definition sample_env : env := {|
  tv_sec := 1351555200;
  jiffies := 4294937296;
  real_time := 1351555200 * 1000000000;
  k_msecs_to_jiffies := fun m => (m + 9) / 10;
  k_ns_to_ktime := fun ns => ns;
  k_ktime_add := fun a b => a + b;
  status := fun _ => 0
|}.

Definition ENOMEM : Z := 12.

(** The same kernel, except that register_pm_notifier fails. *)
Definition failing_env : env := {|
  tv_sec := tv_sec sample_env;
  jiffies := jiffies sample_env;
  real_time := real_time sample_env;
  k_msecs_to_jiffies := k_msecs_to_jiffies sample_env;
  k_ns_to_ktime := k_ns_to_ktime sample_env;
  k_ktime_add := k_ktime_add sample_env;
  status := fun c => match c with register_pm_notifier => - ENOMEM | _ => 0 end
|}.

(** The arming call of each start function, under the kernel's answers. *)
Definition arm_call (BITS_PER_LONG : Z) (o : env) (f : facility) : call :=
  match f with
  | DelayedWork =>
      schedule_delayed_work (k_msecs_to_jiffies o (1 * MSEC_PER_SEC))
  | Timer =>
      mod_timer (wrap BITS_PER_LONG
                   (jiffies o + k_msecs_to_jiffies o (1 * MSEC_PER_SEC)))
  | Alarm =>
      let expire :=
        k_ktime_add o (real_time o)
          (k_ns_to_ktime o (10 * MSEC_PER_SEC * NSEC_PER_MSEC)) in
      alarm_start_range expire expire
  end.

(** The function that re-arms an activity from its handler. *)
Definition rearm (BITS_PER_LONG : Z) (f : facility) : prog unit :=
  match f with
  | DelayedWork => my_delayed_work_start
  | Timer => my_timer_start BITS_PER_LONG
  | Alarm => my_alarm_shot
  end.

(** Name of the handler of each activity ([__func__]). *)
Definition handler_name (f : facility) : string :=
  match f with
  | DelayedWork => "my_delayed_work_handler"
  | Timer => "my_timer_handler"
  | Alarm => "my_alarm_handler"
  end.

(** Calls that undo a start step: cancels, unregistrations, wake lock
    release and destruction. *)
Definition is_release_call (c : call) : bool :=
  match c with
  | cancel_delayed_work_sync | del_timer_sync | alarm_cancel
  | unregister_pm_notifier | unregister_early_suspend
  | wake_unlock | wake_lock_destroy => true
  | _ => false
  end.

(** The call does not act on the wake lock. *)
Definition off_wake_lock (c : call) : Prop := owner c <> Some WakeLock.

(** A callback of [g] arms no activity but [g]. *)
Definition confined (g : facility) (p : prog unit) : Prop :=
  all_calls (fun c => forall f, arm_target c = Some f -> f = g) p.

Definition callbacks_confined (K : kernel) : Prop :=
  forall g p, running (objs K g) = Some p -> confined g p.

(** Invariant of the interleaving semantics behind the cancel barrier. *)
Definition barrier_inv (f : facility) (s : system) : Prop :=
  callbacks_confined (kern s)
  /\ settled f (control s)
  /\ (stopped f s = true ->
      quiescent f (kern s) = true /\ never_arms f (control s)).

(** The clocks one second after [sample_env]. *)
Definition sample_env_later : env := {|
  tv_sec := tv_sec sample_env + 1;
  jiffies := jiffies sample_env + 100;
  real_time := real_time sample_env + 1000000000;
  k_msecs_to_jiffies := k_msecs_to_jiffies sample_env;
  k_ns_to_ktime := k_ns_to_ktime sample_env;
  k_ktime_add := k_ktime_add sample_env;
  status := status sample_env
|}.

(** A schedule in which unloading starts while the timer handler is in the
    middle of a firing: my_init runs to its end (14 calls), a second
    passes, the timer expires, its handler reads the clock and logs, and
    my_exit cancels the alarm. *)
Definition unload_during_firing : list choice :=
  (repeat Control 14
   ++ [Elapse sample_env_later; Expire Timer 0; Callback Timer; Callback Timer;
       Control])%list.

(** The handler then re-arms the timer and returns, and only then does
    del_timer_sync of my_timer_stop go through. *)
Definition firing_then_stop : list choice :=
  (unload_during_firing
   ++ [Callback Timer; Callback Timer; Callback Timer; Callback Timer;
       Control])%list.

(** The state reached from boot by one life of the module under a
    schedule; [None] when the schedule asks for a step that is not enabled. *)
Definition outcome (BITS_PER_LONG : Z) (N : notifier_codes) (o : env)
    (sched : list choice) : option system :=
  run_sched BITS_PER_LONG N sched (boot o (module_lifecycle BITS_PER_LONG)).

(** The schedule can run and its final state satisfies [P]. *)
Definition holds (P : system -> bool) (x : option system) : bool :=
  match x with Some s => P s | None => false end.

Definition quiet (f : facility) (s : system) : bool := quiescent f (kern s).

(** ** Further notions used by the properties of the whole module *)




(** The control thread has returned from its last function. *)
Definition finished (s : system) : bool :=
  match control s with Ret _ => true | Call _ _ => false end.


Definition is_expire (ch : choice) : bool :=
  match ch with Expire _ _ => true | _ => false end.

(** The program cancels [f] before it returns. *)
Fixpoint will_cancel {A : Type} (f : facility) (p : prog A) : Prop :=
  match p with
  | Ret _ => False
  | Call c k => cancel_target c = Some f \/ forall r, will_cancel f (k r)
  end.




(** The call arms activity [f]. *)
Definition arms (f : facility) (c : call) : bool :=
  match arm_target c with Some g => facility_eqb f g | None => false end.

(** The upcall is a firing of activity [f]. *)
Definition is_firing (f : facility) (u : upcall) : bool :=
  match u with Expired g _ => facility_eqb f g | _ => false end.

(** The upcalls that write to the log: every one but a pm event outside
    the four codes my_pm_handler knows. *)
Definition logged (N : notifier_codes) (u : upcall) : bool :=
  match u with
  | PmEvent _ action _ =>
      (action =? PM_HIBERNATION_PREPARE N) || (action =? PM_SUSPEND_PREPARE N)
      || (action =? PM_POST_HIBERNATION N) || (action =? PM_POST_SUSPEND N)
  | _ => true
  end.

(** The calls my_init and my_exit make once and the handlers never. *)
Definition one_time_calls : list call :=
  [wake_lock_init "WAKE_LOCK_SUSPEND" "my_wake_lock";
   register_pm_notifier;
   register_early_suspend "EARLY_SUSPEND_LEVEL_DISABLE_FB";
   alarm_init "ANDROID_ALARM_RTC_WAKEUP";
   alarm_cancel; del_timer_sync; cancel_delayed_work_sync;
   unregister_pm_notifier; unregister_early_suspend].

(** The expiry the kernel records when [f] is armed under clocks [o]. *)
Definition expiry (BITS_PER_LONG : Z) (o : env) (f : facility) : Z :=
  match f with
  | DelayedWork => jiffies o + k_msecs_to_jiffies o (1 * MSEC_PER_SEC)
  | Timer =>
      wrap BITS_PER_LONG (jiffies o + k_msecs_to_jiffies o (1 * MSEC_PER_SEC))
  | Alarm =>
      k_ktime_add o (real_time o)
        (k_ns_to_ktime o (10 * MSEC_PER_SEC * NSEC_PER_MSEC))
  end.

(** Number of kernel calls of the handler of [f]. *)
Definition handler_calls (f : facility) : nat :=
  match f with DelayedWork => 4 | Timer => 5 | Alarm => 6 end.

(** One firing of [f] run to its end with no other thread in between: the
    kernel starts the handler, the handler makes its calls and returns. *)
Definition firing_schedule (f : facility) (arg : Z) : list choice :=
  Expire f arg :: repeat (Callback f) (S (handler_calls f)).

(** The log line of a firing of [f] under clocks [o]. *)
Definition firing_line (BITS_PER_LONG : Z) (o : env) (f : facility) : string :=
  "[mysuspend] " ++ handler_name f ++ ": "
  ++ fmt_lu (wrap BITS_PER_LONG (tv_sec o)) ++ newline.

(** A 32-bit kernel 50 ticks before jiffies wraps, and one whose clock
    reads a time before 1970. *)
Definition wrapping_env : env := {|
  tv_sec := -1;
  jiffies := 2 ^ 32 - 50;
  real_time := real_time sample_env;
  k_msecs_to_jiffies := k_msecs_to_jiffies sample_env;
  k_ns_to_ktime := k_ns_to_ktime sample_env;
  k_ktime_add := k_ktime_add sample_env;
  status := status sample_env
|}.



Definition console_of (x : option system) : option (list string) :=
  option_map (fun s => console (kern s)) x.

(** Nothing has been written to the log and no handler is in flight. *)
Definition silent (s : system) : bool :=
  match console (kern s) with [] => true | _ => false end
  && negb (is_some (running (objs (kern s) DelayedWork)))
  && negb (is_some (running (objs (kern s) Timer)))
  && negb (is_some (running (objs (kern s) Alarm))).


(** Invariant behind [finished]: [f] is stopped or will be. *)
Definition cancel_inv (f : facility) (s : system) : Prop :=
  stopped f s = true \/ will_cancel f (control s).

Definition never_prints {A : Type} (p : prog A) : Prop :=
  all_calls (fun c => log_lines [c] = []) p.

(** A kernel in which the three activities are armed and none runs. *)
Definition armed_kernel : kernel := {|
  clock := sample_env;
  objs := fun _ => {| armed := Some 0; running := None |};
  observers := fun _ => true;
  console := []
|}.

(** No callback in flight will call a synchronous cancel, so none can be
    made to wait. *)
Definition callbacks_never_wait (K : kernel) : Prop :=
  forall g p, running (objs K g) = Some p ->
              all_calls (fun c => cancel_target c = None) p.

(** ** The control thread inside my_exit *)

(** What remains of my_exit at the moment the stop function of [f]
    returns: my_exit is my_alarm_stop, then [after_stop Alarm]; that is
    my_timer_stop, then [after_stop Timer]; that is my_delayed_work_stop,
    then [after_stop DelayedWork]. *)
Definition after_stop (f : facility) : prog unit :=
  match f with
  | Alarm =>
      my_timer_stop ;; my_delayed_work_stop ;; my_pm_notifier_stop ;;
      my_early_suspend_stop ;; my_wake_lock_stop
  | Timer =>
      my_delayed_work_stop ;; my_pm_notifier_stop ;;
      my_early_suspend_stop ;; my_wake_lock_stop
  | DelayedWork =>
      my_pm_notifier_stop ;; my_early_suspend_stop ;; my_wake_lock_stop
  end.

Definition calls_eqb (l r : list call) : bool :=
  if list_eq_dec call_eq_dec l r then true else false.

(** The calls still to be made by a program, under the present clocks. *)
Definition to_do (s : system) (p : prog unit) : list call :=
  trace (clock (kern s)) p.

(** The stop function of [f] has just returned to my_exit: what the
    control thread still has to do is what my_exit does after that call. *)
Definition returned_from_stop (f : facility) (s : system) : bool :=
  calls_eqb (to_do s (control s)) (to_do s (after_stop f)).

(** The call is a synchronous cancel of [f]. *)
Definition cancels (f : facility) (c : call) : bool :=
  match cancel_target c with Some g => facility_eqb f g | None => false end.

(** Schedules in which my_init and then my_exit run with no firing, up to
    the return of my_alarm_stop and up to the return of
    my_delayed_work_stop. *)
Definition until_alarm_stopped : list choice := repeat Control 15.
Definition until_work_stopped : list choice := repeat Control 17.

(** ** Observers under the interleaving semantics *)







(** The scheduler choice delivers an event to an observer. *)
Definition is_deliver (ch : choice) : bool :=
  match ch with Deliver _ => true | _ => false end.

(** A schedule in which a pm event and an early suspend are delivered
    after my_init, and my_exit then runs to its end. *)
Definition events_then_unload : list choice :=
  (repeat Control 14
   ++ [Deliver (PmEvent 0 3 0); Deliver (EarlySuspend 0)]
   ++ repeat Control 7)%list.

(** * Properties *)

(** ** Programs and traces *)

Lemma trace_bind {A B : Type} (o : env) (p : prog A) (f : A -> prog B) :
  trace o (bind p f) = (trace o p ++ trace o (f (result o p)))%list.
Proof.
  induction p as [a | c k IH]; simpl.
  - reflexivity.
  - now rewrite IH.
Qed.

Lemma result_bind {A B : Type} (o : env) (p : prog A) (f : A -> prog B) :
  result o (bind p f) = result o (f (result o p)).
Proof.
  induction p as [a | c k IH]; simpl; auto.
Qed.

Lemma period_values :
  WORK_PERIOD_MS = 1000 /\ TIMER_PERIOD_MS = 1000 /\ ALARM_PERIOD_MS = 10000.
Proof. repeat split; reflexivity. Qed.

Section Sequential.

Variable BITS_PER_LONG : Z.
Variable o : env.

Lemma trace_my_init :
  trace o (my_init BITS_PER_LONG) =
  [wake_lock_init "WAKE_LOCK_SUSPEND" "my_wake_lock"; wake_lock;
   register_pm_notifier;
   register_early_suspend "EARLY_SUSPEND_LEVEL_DISABLE_FB";
   msecs_to_jiffies 1000; arm_call BITS_PER_LONG o DelayedWork;
   jiffies_read; msecs_to_jiffies 1000; arm_call BITS_PER_LONG o Timer;
   alarm_init "ANDROID_ALARM_RTC_WAKEUP";
   ktime_get_real; ns_to_ktime 10000000000;
   ktime_add (real_time o) (k_ns_to_ktime o 10000000000);
   arm_call BITS_PER_LONG o Alarm].
Proof. reflexivity. Qed.

Lemma trace_my_exit :
  trace o my_exit =
  [alarm_cancel; del_timer_sync; cancel_delayed_work_sync;
   unregister_pm_notifier; unregister_early_suspend;
   wake_unlock; wake_lock_destroy].
Proof. reflexivity. Qed.

End Sequential.

(** ** Startup and shutdown order *)

Lemma split_precedes (P Q : call -> bool) (pre post : list call) :
  Forall (fun c => Q c = false) pre ->
  Forall (fun c => P c = false) post ->
  forall i j c d,
    nth_error (pre ++ post)%list i = Some c ->
    nth_error (pre ++ post)%list j = Some d ->
    P c = true -> Q d = true -> (i < j)%nat.
Proof.
  intros Hpre Hpost i j c d Hi Hj Pc Qd.
  destruct (Nat.lt_ge_cases i (List.length pre)) as [Hlt | Hge].
  - destruct (Nat.lt_ge_cases j (List.length pre)) as [Hj' | Hj']; [| lia].
    rewrite nth_error_app1 in Hj by exact Hj'.
    apply nth_error_In in Hj.
    rewrite Forall_forall in Hpre. apply Hpre in Hj. congruence.
  - rewrite nth_error_app2 in Hi by exact Hge.
    apply nth_error_In in Hi.
    rewrite Forall_forall in Hpost. apply Hpost in Hi. congruence.
Qed.

(** C3, as the code has it: my_init starts the wake lock, the pm notifier,
    early suspend, then the delayed work, the timer and the alarm, in that
    order, whatever the kernel answers. *)
Theorem my_init_order (BITS_PER_LONG : Z) (o : env) :
  steps o (my_init BITS_PER_LONG) = init_order
  /\ effects o (my_init BITS_PER_LONG) =
     [wake_lock_init "WAKE_LOCK_SUSPEND" "my_wake_lock"; wake_lock;
      register_pm_notifier;
      register_early_suspend "EARLY_SUSPEND_LEVEL_DISABLE_FB";
      arm_call BITS_PER_LONG o DelayedWork;
      arm_call BITS_PER_LONG o Timer;
      alarm_init "ANDROID_ALARM_RTC_WAKEUP";
      arm_call BITS_PER_LONG o Alarm].
Proof. split; reflexivity. Qed.

(** C3, as the specification words it (timer before delayed work), does
    not hold: the fourth step of my_init is the delayed work. *)
Lemma my_init_order_not_spec :
  steps sample_env (my_init 32) <> spec_start_order
  /\ nth_error (steps sample_env (my_init 32)) 3 =
     Some (PeriodicActivity DelayedWork)
  /\ nth_error spec_start_order 3 = Some (PeriodicActivity Timer).
Proof. repeat split; discriminate. Qed.

(** C2, as the code has it: my_exit cancels the alarm, the timer and the
    delayed work (the reverse of the order in which my_init armed them),
    then unregisters the pm notifier, then early suspend, and releases the
    wake lock last. *)
Theorem my_exit_order (BITS_PER_LONG : Z) (o : env) :
  steps o my_exit = exit_order
  /\ effects o my_exit =
     [alarm_cancel; del_timer_sync; cancel_delayed_work_sync;
      unregister_pm_notifier; unregister_early_suspend;
      wake_unlock; wake_lock_destroy]
  /\ firstn 3 (steps o my_exit) =
     rev (skipn 3 (steps o (my_init BITS_PER_LONG)))
  /\ nth_error (steps o my_exit) 5 = nth_error (steps o (my_init BITS_PER_LONG)) 0.
Proof. repeat split; reflexivity. Qed.

(** C2, as the specification words it, does not hold: my_exit is neither
    the order the specification lists nor the exact reverse of my_init. *)
Lemma my_exit_order_not_spec :
  steps sample_env my_exit <> spec_stop_order
  /\ steps sample_env my_exit <> rev (steps sample_env (my_init 32)).
Proof. split; discriminate. Qed.

(** C4: in my_init every call on a resource or observer comes before every
    call on a periodic activity; in my_exit every call on a periodic
    activity comes before every call on a resource or observer. *)
Theorem resources_outlive_activities (BITS_PER_LONG : Z) (o : env) :
  (forall i j c d,
      nth_error (trace o (my_init BITS_PER_LONG)) i = Some c ->
      nth_error (trace o (my_init BITS_PER_LONG)) j = Some d ->
      is_resource_call c = true -> is_activity_call d = true ->
      (i < j)%nat)
  /\ (forall i j c d,
      nth_error (trace o my_exit) i = Some c ->
      nth_error (trace o my_exit) j = Some d ->
      is_activity_call c = true -> is_resource_call d = true ->
      (i < j)%nat).
Proof.
  split.
  - rewrite trace_my_init.
    apply (split_precedes is_resource_call is_activity_call
             [wake_lock_init "WAKE_LOCK_SUSPEND" "my_wake_lock"; wake_lock;
              register_pm_notifier;
              register_early_suspend "EARLY_SUSPEND_LEVEL_DISABLE_FB"]);
      repeat constructor.
  - rewrite trace_my_exit.
    apply (split_precedes is_activity_call is_resource_call
             [alarm_cancel; del_timer_sync; cancel_delayed_work_sync]);
      repeat constructor.
Qed.

Lemma resources_outlive_activities_witness :
  nth_error (trace sample_env (my_init 32)) 1 = Some wake_lock
  /\ nth_error (trace sample_env (my_init 32)) 5 =
     Some (schedule_delayed_work 100)
  /\ (1 < 5)%nat
  /\ nth_error (trace sample_env my_exit) 2 = Some cancel_delayed_work_sync
  /\ nth_error (trace sample_env my_exit) 3 = Some unregister_pm_notifier
  /\ (2 < 3)%nat.
Proof.
  destruct (resources_outlive_activities 32 sample_env) as [Hinit Hexit].
  repeat split.
  - apply (Hinit 1%nat 5%nat wake_lock (schedule_delayed_work 100));
      reflexivity.
  - apply (Hexit 2%nat 3%nat cancel_delayed_work_sync unregister_pm_notifier);
      reflexivity.
Defined.

(** C5, as the code has it: my_init discards every answer of the kernel.
    It always returns 0, always performs all six start steps and never
    undoes one. *)
Theorem my_init_always_succeeds (BITS_PER_LONG : Z) (o : env) :
  result o (my_init BITS_PER_LONG) = 0
  /\ steps o (my_init BITS_PER_LONG) = init_order
  /\ filter is_release_call (trace o (my_init BITS_PER_LONG)) = [].
Proof. repeat split; reflexivity. Qed.

(** C5, as the specification words it, does not hold: when
    register_pm_notifier fails with -ENOMEM, my_init still returns 0 and
    still arms the three activities. *)
Lemma my_init_hides_failure :
  answer failing_env register_pm_notifier = - ENOMEM
  /\ In register_pm_notifier (trace failing_env (my_init 32))
  /\ result failing_env (my_init 32) = 0
  /\ List.length (filter is_arm (trace failing_env (my_init 32))) = 3%nat
  /\ ~ start_reports_failure 32.
Proof.
  assert (Hin : In register_pm_notifier (trace failing_env (my_init 32))).
  { rewrite trace_my_init. simpl. auto. }
  repeat split; try reflexivity; try exact Hin.
  intros H.
  destruct (H failing_env register_pm_notifier Hin eq_refl) as [Hret _].
  - reflexivity.
  - apply Hret. reflexivity.
Qed.

(** ** pm notifier *)

(** C6: a PrepareSleep event is logged as "suspend" and a PostWake event as
    "resume", with one printk and nothing else, and acknowledged with
    NOTIFY_OK; any other event makes no kernel call at all and is
    acknowledged with NOTIFY_DONE.  No other value is ever returned. *)
Theorem my_pm_handler_ack (N : notifier_codes) (nfb action data : Z) (o : env) :
  case_labels_distinct N = true ->
  (action = PM_SUSPEND_PREPARE N \/ action = PM_HIBERNATION_PREPARE N ->
     trace o (my_pm_handler N nfb action data) =
       [printk KERN_INFO ("[mysuspend] my_pm_handler: suspend" ++ newline)]
     /\ result o (my_pm_handler N nfb action data) = NOTIFY_OK N)
  /\ (action = PM_POST_SUSPEND N \/ action = PM_POST_HIBERNATION N ->
     trace o (my_pm_handler N nfb action data) =
       [printk KERN_INFO ("[mysuspend] my_pm_handler: resume" ++ newline)]
     /\ result o (my_pm_handler N nfb action data) = NOTIFY_OK N)
  /\ (action <> PM_SUSPEND_PREPARE N -> action <> PM_HIBERNATION_PREPARE N ->
      action <> PM_POST_SUSPEND N -> action <> PM_POST_HIBERNATION N ->
     trace o (my_pm_handler N nfb action data) = []
     /\ result o (my_pm_handler N nfb action data) = NOTIFY_DONE N)
  /\ (result o (my_pm_handler N nfb action data) = NOTIFY_OK N
      \/ result o (my_pm_handler N nfb action data) = NOTIFY_DONE N).
Proof.
  unfold case_labels_distinct, my_pm_handler. intros Hd.
  repeat (apply andb_prop in Hd; destruct Hd as [Hd ?]).
  repeat match goal with
         | H : negb (_ =? _) = true |- _ =>
             apply negb_true_iff, Z.eqb_neq in H
         end.
  destruct (Z.eqb_spec action (PM_HIBERNATION_PREPARE N)) as [E1 | E1];
    destruct (Z.eqb_spec action (PM_SUSPEND_PREPARE N)) as [E2 | E2];
    destruct (Z.eqb_spec action (PM_POST_HIBERNATION N)) as [E3 | E3];
    destruct (Z.eqb_spec action (PM_POST_SUSPEND N)) as [E4 | E4];
    simpl; repeat split; intros; auto; try congruence;
    repeat match goal with H : _ \/ _ |- _ => destruct H end;
    congruence.
Qed.

Lemma my_pm_handler_ack_witness :
  case_labels_distinct linux_codes = true
  /\ result sample_env (my_pm_handler linux_codes 0 3 0) = 1
  /\ result sample_env (my_pm_handler linux_codes 0 4 0) = 1
  /\ result sample_env (my_pm_handler linux_codes 0 5 0) = 0.
Proof.
  split; [reflexivity |].
  split; [| split].
  - destruct (my_pm_handler_ack linux_codes 0 3 0 sample_env eq_refl)
      as [H _].
    apply H. left. reflexivity.
  - destruct (my_pm_handler_ack linux_codes 0 4 0 sample_env eq_refl)
      as (_ & H & _).
    apply H. left. reflexivity.
  - destruct (my_pm_handler_ack linux_codes 0 5 0 sample_env eq_refl)
      as (_ & _ & H & _).
    apply H; discriminate.
Defined.

(** C10: what my_pm_handler logs and returns is a function of the action
    code alone; the notifier block, the data pointer and the answers of the
    kernel play no part. *)
Theorem my_pm_handler_depends_on_action_only
    (N : notifier_codes) (action nfb1 data1 nfb2 data2 : Z) (o1 o2 : env) :
  my_pm_handler N nfb1 action data1 = my_pm_handler N nfb2 action data2
  /\ trace o1 (my_pm_handler N nfb1 action data1) =
     trace o2 (my_pm_handler N nfb2 action data2)
  /\ result o1 (my_pm_handler N nfb1 action data1) =
     result o2 (my_pm_handler N nfb2 action data2).
Proof.
  unfold my_pm_handler.
  destruct ((action =? PM_HIBERNATION_PREPARE N)
            || (action =? PM_SUSPEND_PREPARE N));
    [| destruct ((action =? PM_POST_HIBERNATION N)
                 || (action =? PM_POST_SUSPEND N))];
    repeat split; reflexivity.
Qed.

(** ** Periodic activities *)

(** C7: each handler reads the time, writes one log line made of its own
    name and the seconds, and only then re-arms its activity; the re-arming
    writes nothing and makes exactly one arming call, whose expiry is the
    present time plus the period. *)
Theorem handler_logs_then_rearms
    (BITS_PER_LONG : Z) (f : facility) (arg : Z) (o : env) :
  trace o (activity_handler BITS_PER_LONG f arg) =
    getnstimeofday
    :: printk KERN_INFO
         ("[mysuspend] " ++ handler_name f ++ ": "
          ++ fmt_lu (wrap BITS_PER_LONG (tv_sec o)) ++ newline)
    :: trace o (rearm BITS_PER_LONG f)
  /\ log_lines (trace o (rearm BITS_PER_LONG f)) = []
  /\ filter is_arm (trace o (rearm BITS_PER_LONG f)) =
     [arm_call BITS_PER_LONG o f]
  /\ last (trace o (activity_handler BITS_PER_LONG f arg)) getnstimeofday =
     arm_call BITS_PER_LONG o f.
Proof. destruct f; repeat split; reflexivity. Qed.

(** C8: the periods are 1 s (delayed work), 1 s (timer) and 10 s (alarm),
    and the only arming call of each start function and of each handler
    uses the period of its own activity. *)
Theorem periods_fixed (BITS_PER_LONG : Z) (f : facility) (arg : Z) (o : env) :
  WORK_PERIOD_MS = 1 * MSEC_PER_SEC
  /\ TIMER_PERIOD_MS = 1 * MSEC_PER_SEC
  /\ ALARM_PERIOD_MS = 10 * MSEC_PER_SEC
  /\ filter is_arm (trace o (activity_start BITS_PER_LONG f)) =
     [arm_call BITS_PER_LONG o f]
  /\ filter is_arm (trace o (activity_handler BITS_PER_LONG f arg)) =
     [arm_call BITS_PER_LONG o f].
Proof. destruct f; repeat split; reflexivity. Qed.

(** On the sample kernel (HZ = 100, time in nanoseconds) the three expiries
    are one second, one second and ten seconds ahead. *)
Example arm_call_sample :
  arm_call 32 sample_env DelayedWork = schedule_delayed_work 100
  /\ arm_call 32 sample_env Timer = mod_timer (jiffies sample_env + 100)
  /\ arm_call 32 sample_env Alarm =
     alarm_start_range (real_time sample_env + 10 * 1000000000)
                       (real_time sample_env + 10 * 1000000000).
Proof. repeat split; reflexivity. Qed.

Example timer_log_sample :
  log_lines (trace sample_env (my_timer_handler 32 0)) =
  ["[mysuspend] my_timer_handler: 1351555200" ++ newline].
Proof. reflexivity. Qed.

(** ** Wake lock *)

Lemma upcall_off_wake_lock (BITS_PER_LONG : Z) (N : notifier_codes)
    (o : env) (u : upcall) :
  Forall off_wake_lock (trace o (upcall_prog BITS_PER_LONG N u)).
Proof.
  destruct u as [f arg | nfb action data | h | h]; simpl.
  - destruct f; repeat constructor; discriminate.
  - unfold my_pm_handler.
    destruct ((action =? PM_HIBERNATION_PREPARE N)
              || (action =? PM_SUSPEND_PREPARE N));
      [| destruct ((action =? PM_POST_HIBERNATION N)
                   || (action =? PM_POST_SUSPEND N))];
      repeat constructor; discriminate.
  - repeat constructor; discriminate.
  - repeat constructor; discriminate.
Qed.

Lemma upcalls_off_wake_lock (BITS_PER_LONG : Z) (N : notifier_codes)
    (ups : list (env * upcall)) :
  Forall off_wake_lock
    (flat_map (fun ou => trace (fst ou) (upcall_prog BITS_PER_LONG N (snd ou)))
       ups).
Proof.
  induction ups as [| [o u] ups IH]; simpl.
  - constructor.
  - apply Forall_app. split; [apply upcall_off_wake_lock | exact IH].
Qed.

Lemma wl_step_off (s : wl_state) (c : call) :
  off_wake_lock c -> wl_step s c = Some s.
Proof.
  unfold off_wake_lock. destruct c; simpl; intros H; congruence.
Qed.

Lemma wl_run_off (s : wl_state) (l : list call) :
  Forall off_wake_lock l -> forall r, wl_run s (l ++ r)%list = wl_run s r.
Proof.
  induction 1 as [| c l Hc _ IH]; intros r; simpl.
  - reflexivity.
  - rewrite (wl_step_off s c Hc). apply IH.
Qed.

Lemma count_off (c : call) (l : list call) :
  owner c = Some WakeLock -> Forall off_wake_lock l -> count c l = 0%nat.
Proof.
  intros Hc Hl. unfold count. apply count_occ_not_In.
  intros Hin. rewrite Forall_forall in Hl. apply (Hl c Hin Hc).
Qed.

Lemma count_app (c : call) (l r : list call) :
  count c (l ++ r)%list = (count c l + count c r)%nat.
Proof. unfold count. apply count_occ_app. Qed.

(** C9: over one life of the module, whatever upcalls happen in between,
    wake_lock is called exactly once, by my_init, and wake_unlock exactly
    once, by my_exit; the calls follow the wake lock protocol, so the lock
    is never taken twice in a row and is destroyed only once released. *)
Theorem wake_lock_paired (BITS_PER_LONG : Z) (N : notifier_codes)
    (o_init : env) (ups : list (env * upcall)) (o_exit : env) :
  count wake_lock (lifetime BITS_PER_LONG N o_init ups o_exit) = 1%nat
  /\ count wake_unlock (lifetime BITS_PER_LONG N o_init ups o_exit) = 1%nat
  /\ count wake_lock_destroy (lifetime BITS_PER_LONG N o_init ups o_exit) = 1%nat
  /\ count wake_lock (trace o_init (my_init BITS_PER_LONG)) = 1%nat
  /\ count wake_unlock (trace o_exit my_exit) = 1%nat
  /\ wl_run WlNone (lifetime BITS_PER_LONG N o_init ups o_exit)
     = Some WlDestroyed.
Proof.
  pose proof (upcalls_off_wake_lock BITS_PER_LONG N ups) as Hups.
  unfold lifetime.
  rewrite !count_app.
  rewrite !(fun c H => count_off c _ H Hups) by reflexivity.
  repeat split; try reflexivity.
  rewrite trace_my_init. cbn [app wl_run wl_step arm_call].
  rewrite (wl_run_off _ _ Hups). reflexivity.
Qed.

(** The protocol monitor does refuse a second wake_lock and a destroy of
    a held lock. *)
Example wl_run_refuses :
  wl_run WlNone [wake_lock_init "t" "n"; wake_lock; wake_lock] = None
  /\ wl_run WlNone [wake_lock_init "t" "n"; wake_lock; wake_lock_destroy] = None.
Proof. split; reflexivity. Qed.

(** ** Synchronous cancel *)

Lemma facility_eqb_eq (f g : facility) : facility_eqb f g = true <-> f = g.
Proof. destruct f, g; simpl; split; congruence. Qed.

Lemma facility_eqb_refl (f : facility) : facility_eqb f f = true.
Proof. now destruct f. Qed.

Lemma facility_eqb_neq (f g : facility) : facility_eqb f g = false <-> f <> g.
Proof. destruct f, g; simpl; split; congruence. Qed.

Lemma set_obj_same (f : facility) (x : kobj) (K : kernel) :
  objs (set_obj f x K) f = x.
Proof. simpl. now rewrite facility_eqb_refl. Qed.

Lemma set_obj_other (f g : facility) (x : kobj) (K : kernel) :
  g <> f -> objs (set_obj f x K) g = objs K g.
Proof. intros H. simpl. apply facility_eqb_neq in H. now rewrite H. Qed.

Lemma quiescent_iff (f : facility) (K : kernel) :
  quiescent f K = true <->
  armed (objs K f) = None /\ running (objs K f) = None.
Proof.
  unfold quiescent.
  destruct (armed (objs K f)), (running (objs K f)); simpl;
    split; intros H; try discriminate; auto; destruct H; discriminate.
Qed.

(** No call changes which callbacks are in flight. *)
Lemma exec_call_running (K K' : kernel) (c : call) (r : Z) (g : facility) :
  exec_call K c = Some (r, K') -> running (objs K' g) = running (objs K g).
Proof.
  assert (Harm : forall f e, running (objs (arm f e K) g) = running (objs K g)).
  { intros f e. unfold arm. simpl.
    destruct (facility_eqb g f) eqn:E; [| reflexivity].
    apply facility_eqb_eq in E. now subst. }
  assert (Hcan : forall f, cancel_sync f K = Some (r, K') ->
                           running (objs K' g) = running (objs K g)).
  { intros f. unfold cancel_sync.
    destruct (running (objs K f)) eqn:Er; [discriminate |].
    intros H. injection H as _ <-. simpl.
    destruct (facility_eqb g f) eqn:E; [| reflexivity].
    apply facility_eqb_eq in E. subst. now rewrite Er. }
  destruct c; simpl; try (intros H; injection H as _ <-; reflexivity);
    try (apply Hcan); try (intros H; injection H as _ <-; apply Harm);
    try (intros H; injection H as _ <-; unfold register;
         destruct (_ <? 0); reflexivity).
  destruct (is_some (armed (objs K DelayedWork)));
    intros H; injection H as _ <-; [reflexivity | apply Harm].
Qed.

(** A call that does not arm [f] leaves [f] quiescent. *)
Lemma exec_call_quiescent (K K' : kernel) (c : call) (r : Z) (f : facility) :
  exec_call K c = Some (r, K') ->
  arm_target c <> Some f ->
  quiescent f K = true -> quiescent f K' = true.
Proof.
  intros Hex Hc Hq.
  assert (Harm : forall g e, g <> f -> quiescent f (arm g e K) = true).
  { intros g e Hg. unfold quiescent, arm.
    rewrite set_obj_other by congruence. exact Hq. }
  assert (Hcan : forall g, cancel_sync g K = Some (r, K') ->
                           quiescent f K' = true).
  { intros g. unfold cancel_sync.
    destruct (running (objs K g)); [discriminate |].
    intros H. injection H as _ <-. unfold quiescent. simpl.
    destruct (facility_eqb f g); [reflexivity | exact Hq]. }
  destruct c; simpl in Hex, Hc;
    try (injection Hex as _ <-; exact Hq);
    try (apply Hcan in Hex; exact Hex);
    try (injection Hex as _ <-; unfold register;
         destruct (_ <? 0); exact Hq).
  - destruct (is_some (armed (objs K DelayedWork)));
      injection Hex as _ <-; [exact Hq | apply Harm; congruence].
  - injection Hex as _ <-. apply Harm. congruence.
  - injection Hex as _ <-. apply Harm. congruence.
Qed.

(** A synchronous cancel that returns leaves its activity quiescent. *)
Lemma exec_cancel_quiescent (K K' : kernel) (c : call) (r : Z) (f : facility) :
  exec_call K c = Some (r, K') ->
  cancel_target c = Some f ->
  quiescent f K' = true.
Proof.
  intros Hex Hc.
  destruct c; simpl in Hc; try discriminate; injection Hc as <-;
    simpl in Hex; unfold cancel_sync in Hex;
    match type of Hex with
    | context [running ?x] => destruct (running x); [discriminate |]
    end;
    injection Hex as _ <-; reflexivity.
Qed.

(** It returns only when no callback of the activity is in flight. *)
Lemma exec_cancel_waits (K : kernel) (c : call) (f : facility) (p : prog unit) :
  cancel_target c = Some f ->
  running (objs K f) = Some p ->
  exec_call K c = None.
Proof.
  intros Hc Hr.
  destruct c; simpl in Hc; try discriminate; injection Hc as <-;
    simpl; unfold cancel_sync; now rewrite Hr.
Qed.

Lemma handler_confined (BITS_PER_LONG : Z) (g : facility) (arg : Z) :
  confined g (activity_handler BITS_PER_LONG g arg).
Proof.
  destruct g; simpl; repeat (split; intros); simpl in *; congruence.
Qed.

Lemma lifecycle_settled (BITS_PER_LONG : Z) (f : facility) :
  settled f (module_lifecycle BITS_PER_LONG).
Proof.
  destruct f; simpl; repeat (split; intros); simpl in *; congruence.
Qed.

Lemma stopped_iff (f : facility) (s : system) :
  stopped f s = true <-> exists c, In c (done s) /\ cancel_target c = Some f.
Proof.
  unfold stopped. rewrite existsb_exists. split; intros (c & Hin & Hc).
  - exists c. split; [exact Hin |].
    destruct (cancel_target c) as [g |]; [| discriminate].
    apply facility_eqb_eq in Hc. now subst.
  - exists c. split; [exact Hin |]. rewrite Hc. apply facility_eqb_refl.
Qed.

(** A delivery runs a handler that only logs: it changes neither the
    activities, nor the observers, nor the control thread. *)
Lemma step_deliver (BITS_PER_LONG : Z) (N : notifier_codes) (u : upcall)
    (s s' : system) :
  step BITS_PER_LONG N (Deliver u) s = Some s' ->
  objs (kern s') = objs (kern s)
  /\ observers (kern s') = observers (kern s)
  /\ control s' = control s
  /\ done s' = done s.
Proof.
  simpl. unfold deliver.
  destruct u as [g arg | nfb action data | h | h]; simpl;
    try discriminate;
    match goal with
    | |- context [if ?b then _ else _] => destruct b; [| discriminate]
    end.
  - unfold my_pm_handler.
    destruct ((action =? PM_HIBERNATION_PREPARE N)
              || (action =? PM_SUSPEND_PREPARE N));
      [| destruct ((action =? PM_POST_HIBERNATION N)
                   || (action =? PM_POST_SUSPEND N))];
      simpl; intros H; injection H as <-; repeat split.
  - intros H; injection H as <-; repeat split.
  - intros H; injection H as <-; repeat split.
Qed.

Section Barrier.

Variable BITS_PER_LONG : Z.
Variable N : notifier_codes.
Variable f : facility.

(** One step of any thread keeps the invariant; once [f] is stopped it
    stays stopped and the step cannot belong to a firing of [f]. *)
Lemma step_barrier_inv (ch : choice) (s s' : system) :
  step BITS_PER_LONG N ch s = Some s' ->
  barrier_inv f s ->
  barrier_inv f s'
  /\ (stopped f s = true -> stopped f s' = true /\ fires f ch = false).
Proof.
  intros Hstep (Hconf & Hset & Hstop).
  destruct ch as [o | g arg | g | u |]; simpl in Hstep.
  - (* time passes *)
    injection Hstep as <-. unfold barrier_inv; simpl.
    repeat split; auto; apply Hstop; assumption.
  - (* a firing of g starts *)
    destruct (armed (objs (kern s) g)) as [e |] eqn:Earm; [| discriminate].
    destruct (running (objs (kern s) g)) eqn:Erun; [discriminate |].
    injection Hstep as <-.
    assert (Hfg : stopped f s = true -> f <> g).
    { intros Hs Heq. subst g. apply Hstop in Hs. destruct Hs as [Hq _].
      apply quiescent_iff in Hq. destruct Hq as [Hq _]. congruence. }
    unfold barrier_inv; simpl kern; simpl control.
    split; [split; [| split] |].
    + intros g' p.
      destruct (facility_eqb g' g) eqn:E.
      * apply facility_eqb_eq in E. subst g'. rewrite set_obj_same. simpl.
        intros H. injection H as <-. apply handler_confined.
      * apply facility_eqb_neq in E. rewrite set_obj_other by exact E.
        apply Hconf.
    + exact Hset.
    + intros Hs. change (stopped f s = true) in Hs.
      destruct (Hstop Hs) as [Hq Hna]. split; [| exact Hna].
      unfold quiescent. rewrite set_obj_other by (apply Hfg; exact Hs).
      exact Hq.
    + intros Hs. split; [exact Hs |]. simpl.
      apply facility_eqb_neq. apply Hfg. exact Hs.
  - (* the callback of g makes its next call, or returns *)
    destruct (running (objs (kern s) g)) as [p |] eqn:Erun; [| discriminate].
    assert (Hfg : stopped f s = true -> f <> g).
    { intros Hs Heq. subst g. apply Hstop in Hs. destruct Hs as [Hq _].
      apply quiescent_iff in Hq. destruct Hq as [_ Hq]. congruence. }
    destruct p as [a | c k].
    + injection Hstep as <-.
      unfold barrier_inv; simpl kern; simpl control.
      split; [split; [| split] |].
      * intros g' p.
        destruct (facility_eqb g' g) eqn:E.
        -- apply facility_eqb_eq in E. subst g'. rewrite set_obj_same. simpl.
           discriminate.
        -- apply facility_eqb_neq in E. rewrite set_obj_other by exact E.
           apply Hconf.
      * exact Hset.
      * intros Hs. change (stopped f s = true) in Hs.
        destruct (Hstop Hs) as [Hq Hna]. split; [| exact Hna].
        unfold quiescent. rewrite set_obj_other by (apply Hfg; exact Hs).
        exact Hq.
      * intros Hs. split; [exact Hs |]. simpl.
        apply facility_eqb_neq. apply Hfg. exact Hs.
    + destruct (exec_call (kern s) c) as [[r K'] |] eqn:Eex; [| discriminate].
      injection Hstep as <-.
      pose proof (Hconf g _ Erun) as [Hc Hk].
      unfold barrier_inv; simpl kern; simpl control.
      split; [split; [| split] |].
      * intros g' p.
        destruct (facility_eqb g' g) eqn:E.
        -- apply facility_eqb_eq in E. subst g'. rewrite set_obj_same. simpl.
           intros H. injection H as <-. apply Hk.
        -- apply facility_eqb_neq in E. rewrite set_obj_other by exact E.
           rewrite (exec_call_running _ _ _ _ g' Eex). apply Hconf.
      * exact Hset.
      * intros Hs. change (stopped f s = true) in Hs.
        destruct (Hstop Hs) as [Hq Hna]. split; [| exact Hna].
        unfold quiescent. rewrite set_obj_other by (apply Hfg; exact Hs).
        apply (exec_call_quiescent _ _ _ _ f Eex); [| exact Hq].
        intros Harm. apply Hc in Harm. apply (Hfg Hs). exact Harm.
      * intros Hs. split; [exact Hs |]. simpl.
        apply facility_eqb_neq. apply Hfg. exact Hs.
  - (* an event is delivered to an observer *)
    destruct (deliver BITS_PER_LONG N u (kern s)) as [K' |] eqn:Ed;
      [| discriminate].
    destruct (step_deliver BITS_PER_LONG N u s s') as (Ho & _ & Hc & Hd).
    { simpl. rewrite Ed. exact Hstep. }
    unfold barrier_inv, callbacks_confined, quiescent, stopped.
    rewrite Ho, Hc, Hd. repeat split; auto; apply Hstop; assumption.
  - (* the control thread makes its next call *)
    destruct (control s) as [a | c k] eqn:Ectl; [discriminate |].
    destruct (exec_call (kern s) c) as [[r K'] |] eqn:Eex; [| discriminate].
    injection Hstep as <-.
    simpl in Hset. destruct Hset as [Hcan Hset].
    unfold barrier_inv; simpl kern; simpl control.
    split; [split; [| split] |].
    + intros g' p. rewrite (exec_call_running _ _ _ _ g' Eex). apply Hconf.
    + apply Hset.
    + intros Hs. apply stopped_iff in Hs. simpl in Hs.
      destruct Hs as (d & Hin & Hd).
      apply in_app_or in Hin. destruct Hin as [Hin | [<- | []]].
      * assert (Hs : stopped f s = true)
          by (apply stopped_iff; exists d; auto).
        destruct (Hstop Hs) as [Hq [Hc Hna]]. split; [| apply Hna].
        apply (exec_call_quiescent _ _ _ _ f Eex); assumption.
      * split; [| apply Hcan; exact Hd].
        apply (exec_cancel_quiescent _ _ _ _ f Eex). exact Hd.
    + intros Hs. split; [| reflexivity].
      apply stopped_iff in Hs. destruct Hs as (d & Hin & Hd).
      apply stopped_iff. exists d. simpl. split; [| exact Hd].
      apply in_or_app. now left.
Qed.

Lemma run_barrier_inv (sched : list choice) :
  forall s s',
    run_sched BITS_PER_LONG N sched s = Some s' ->
    barrier_inv f s ->
    barrier_inv f s'
    /\ (stopped f s = true ->
        stopped f s' = true
        /\ forallb (fun ch => negb (fires f ch)) sched = true).
Proof.
  induction sched as [| ch rest IH]; intros s s' Hrun Hinv; simpl in Hrun.
  - injection Hrun as <-. auto.
  - destruct (step BITS_PER_LONG N ch s) as [s1 |] eqn:Est; [| discriminate].
    destruct (step_barrier_inv ch s s1 Est Hinv) as [Hinv1 Hst1].
    destruct (IH s1 s' Hrun Hinv1) as [Hinv' Hst'].
    split; [exact Hinv' |].
    intros Hs. destruct (Hst1 Hs) as [Hs1 Hch].
    destruct (Hst' Hs1) as [Hs' Hrest].
    split; [exact Hs' |]. simpl. now rewrite Hch, Hrest.
Qed.

Lemma boot_barrier_inv (o : env) :
  barrier_inv f (boot o (module_lifecycle BITS_PER_LONG)).
Proof.
  split; [| split].
  - intros g p. simpl. discriminate.
  - apply lifecycle_settled.
  - discriminate.
Qed.

End Barrier.

Lemma run_sched_app (BITS_PER_LONG : Z) (N : notifier_codes)
    (a b : list choice) (s : system) :
  run_sched BITS_PER_LONG N (a ++ b)%list s =
  match run_sched BITS_PER_LONG N a s with
  | Some s1 => run_sched BITS_PER_LONG N b s1
  | None => None
  end.
Proof.
  revert s. induction a as [| ch a IH]; intros s; simpl.
  - reflexivity.
  - destruct (step BITS_PER_LONG N ch s); [apply IH | reflexivity].
Qed.

(** The barrier on states: from a state of a life of the module in which
    the control thread has completed the synchronous cancel of [f], [f] is
    quiescent and no continuation contains a step of a firing of [f]. *)
Lemma stop_barrier_states (BITS_PER_LONG : Z) (N : notifier_codes)
    (f : facility) (o : env) (sched : list choice) (s : system) :
  run_sched BITS_PER_LONG N sched (boot o (module_lifecycle BITS_PER_LONG))
    = Some s ->
  stopped f s = true ->
  quiescent f (kern s) = true
  /\ forall sched' s',
       run_sched BITS_PER_LONG N sched' s = Some s' ->
       quiescent f (kern s') = true
       /\ forallb (fun ch => negb (fires f ch)) sched' = true.
Proof.
  intros Hrun Hs.
  destruct (run_barrier_inv BITS_PER_LONG N f sched _ _ Hrun
              (boot_barrier_inv BITS_PER_LONG f o)) as [Hinv _].
  split.
  - destruct Hinv as (_ & _ & Hq). now apply Hq.
  - intros sched' s' Hrun'.
    destruct (run_barrier_inv BITS_PER_LONG N f sched' _ _ Hrun' Hinv)
      as [Hinv' Hst].
    destruct (Hst Hs) as [Hs' Hno].
    split; [| exact Hno].
    destruct Hinv' as (_ & _ & Hq). now apply Hq.
Qed.

Lemma stopped_step (BITS_PER_LONG : Z) (N : notifier_codes) (f : facility)
    (ch : choice) (s s' : system) :
  step BITS_PER_LONG N ch s = Some s' ->
  stopped f s = true -> stopped f s' = true.
Proof.
  intros Hstep Hs.
  assert (Hsub : forall c, In c (done s) -> In c (done s')).
  { destruct ch as [o | g arg | g | u |]; simpl in Hstep.
    - injection Hstep as <-. auto.
    - destruct (armed (objs (kern s) g)); [| discriminate].
      destruct (running (objs (kern s) g)); [discriminate |].
      injection Hstep as <-. auto.
    - destruct (running (objs (kern s) g)) as [[a | c k] |];
        [| destruct (exec_call (kern s) c) as [[r K'] |] |];
        try discriminate; injection Hstep as <-; auto.
    - destruct (deliver BITS_PER_LONG N u (kern s)); [| discriminate].
      injection Hstep as <-. auto.
    - destruct (control s) as [a | c k]; [discriminate |].
      destruct (exec_call (kern s) c) as [[r K'] |]; [| discriminate].
      injection Hstep as <-. simpl. intros c' Hin.
      apply in_or_app. now left. }
  apply stopped_iff in Hs. destruct Hs as (c & Hin & Hc).
  apply stopped_iff. exists c. auto.
Qed.

Section Cancel.

Variable BITS_PER_LONG : Z.
Variable N : notifier_codes.

Lemma step_cancel_inv (f : facility) (ch : choice) (s s' : system) :
  step BITS_PER_LONG N ch s = Some s' -> cancel_inv f s -> cancel_inv f s'.
Proof.
  intros Hstep [Hs | Hw].
  - left. apply (stopped_step BITS_PER_LONG N f ch s s' Hstep Hs).
  - destruct ch as [o | g arg | g | u |]; simpl in Hstep.
    + injection Hstep as <-. right. exact Hw.
    + destruct (armed (objs (kern s) g)); [| discriminate].
      destruct (running (objs (kern s) g)); [discriminate |].
      injection Hstep as <-. right. exact Hw.
    + destruct (running (objs (kern s) g)) as [[a | c k] |];
        [| destruct (exec_call (kern s) c) as [[r K'] |] |];
        try discriminate; injection Hstep as <-; right; exact Hw.
    + destruct (deliver BITS_PER_LONG N u (kern s)); [| discriminate].
      injection Hstep as <-. right. exact Hw.
    + destruct (control s) as [a | c k] eqn:Ectl; [discriminate |].
      destruct (exec_call (kern s) c) as [[r K'] |]; [| discriminate].
      injection Hstep as <-. simpl in Hw. destruct Hw as [Hc | Hw].
      * left. apply stopped_iff. exists c. simpl. split; [| exact Hc].
        apply in_or_app. right. now left.
      * right. apply Hw.
Qed.

Lemma run_cancel_inv (f : facility) (sched : list choice) :
  forall s s',
    run_sched BITS_PER_LONG N sched s = Some s' ->
    cancel_inv f s -> cancel_inv f s'.
Proof.
  induction sched as [| ch rest IH]; intros s s' Hrun Hinv; simpl in Hrun.
  - injection Hrun as <-. exact Hinv.
  - destruct (step BITS_PER_LONG N ch s) as [s1 |] eqn:Est; [| discriminate].
    apply (IH s1 s' Hrun). apply (step_cancel_inv f ch s s1 Est Hinv).
Qed.

Lemma boot_cancel_inv (f : facility) (o : env) :
  cancel_inv f (boot o (module_lifecycle BITS_PER_LONG)).
Proof.
  right. destruct f; simpl;
    repeat first [left; reflexivity | right; intros].
Qed.

End Cancel.

(** my_exit is the three stop functions, each followed by [after_stop]. *)
Lemma my_exit_unfolds :
  my_exit = (my_alarm_stop ;; after_stop Alarm)
  /\ after_stop Alarm = (my_timer_stop ;; after_stop Timer)
  /\ after_stop Timer = (my_delayed_work_stop ;; after_stop DelayedWork).
Proof. repeat split; reflexivity. Qed.

Lemma will_cancel_to_do (f : facility) (p : prog unit) :
  will_cancel f p -> forall o, existsb (cancels f) (trace o p) = true.
Proof.
  induction p as [a | c k IH]; simpl; intros H o; [destruct H |].
  destruct H as [Hc | Hk].
  - unfold cancels. rewrite Hc, facility_eqb_refl. reflexivity.
  - rewrite (IH _ (Hk _)). apply orb_true_r.
Qed.

Lemma after_stop_no_cancel (f : facility) (o : env) :
  existsb (cancels f) (trace o (after_stop f)) = false.
Proof. destruct f; reflexivity. Qed.

(** When the stop function of [f] has just returned, the control thread
    has completed the synchronous cancel of [f]. *)
Lemma returned_stopped (BITS_PER_LONG : Z) (N : notifier_codes)
    (f : facility) (o : env) (sched : list choice) (s : system) :
  run_sched BITS_PER_LONG N sched (boot o (module_lifecycle BITS_PER_LONG))
    = Some s ->
  returned_from_stop f s = true -> stopped f s = true.
Proof.
  intros Hrun Hret.
  destruct (run_cancel_inv BITS_PER_LONG N f sched _ _ Hrun
              (boot_cancel_inv BITS_PER_LONG f o)) as [Hs | Hw];
    [exact Hs |].
  unfold returned_from_stop, calls_eqb, to_do in Hret.
  destruct (list_eq_dec call_eq_dec _ _) as [E |]; [| discriminate].
  pose proof (will_cancel_to_do f _ Hw (clock (kern s))) as Hin.
  rewrite E, after_stop_no_cancel in Hin. discriminate.
Qed.

(** C1: in every interleaving of one life of the module with the callbacks
    of its three activities and the events delivered to its observers, at
    the moment the stop function of an activity returns to my_exit no
    firing of that activity is pending or in flight; and however the
    execution continues, that remains so and no later step starts or
    continues a firing of that activity. *)
Theorem stop_is_barrier (BITS_PER_LONG : Z) (N : notifier_codes)
    (f : facility) (o : env) (sched : list choice) :
  holds (returned_from_stop f) (outcome BITS_PER_LONG N o sched) = true ->
  holds (quiet f) (outcome BITS_PER_LONG N o sched) = true
  /\ forall sched',
       is_some (outcome BITS_PER_LONG N o (sched ++ sched')%list) = true ->
       holds (quiet f) (outcome BITS_PER_LONG N o (sched ++ sched')%list) = true
       /\ forallb (fun ch => negb (fires f ch)) sched' = true.
Proof.
  unfold outcome. intros Hret.
  destruct (run_sched BITS_PER_LONG N sched
              (boot o (module_lifecycle BITS_PER_LONG))) as [s |] eqn:Hrun;
    [| discriminate].
  simpl in Hret.
  pose proof (returned_stopped BITS_PER_LONG N f o sched s Hrun Hret) as Hs.
  destruct (stop_barrier_states BITS_PER_LONG N f o sched s Hrun Hs)
    as [Hq Hafter].
  split; [exact Hq |].
  intros sched'. rewrite run_sched_app, Hrun.
  destruct (run_sched BITS_PER_LONG N sched' s) as [s' |] eqn:Hrun';
    [| discriminate].
  intros _. apply (Hafter sched' s' Hrun').
Qed.

Lemma stop_is_barrier_witness :
  (holds (returned_from_stop Alarm)
     (outcome 32 linux_codes sample_env until_alarm_stopped) = true
   /\ holds (quiet Alarm)
        (outcome 32 linux_codes sample_env until_alarm_stopped) = true)
  /\ (holds (returned_from_stop Timer)
        (outcome 32 linux_codes sample_env firing_then_stop) = true
      /\ holds (quiet Timer)
           (outcome 32 linux_codes sample_env firing_then_stop) = true
      /\ is_some (outcome 32 linux_codes sample_env
                    (firing_then_stop ++ [Elapse sample_env; Control])%list)
         = true
      /\ holds (quiet Timer)
           (outcome 32 linux_codes sample_env
              (firing_then_stop ++ [Elapse sample_env; Control])%list) = true)
  /\ (holds (returned_from_stop DelayedWork)
        (outcome 32 linux_codes sample_env until_work_stopped) = true
      /\ holds (quiet DelayedWork)
           (outcome 32 linux_codes sample_env until_work_stopped) = true).
Proof.
  assert (Ha : holds (returned_from_stop Alarm)
                 (outcome 32 linux_codes sample_env until_alarm_stopped)
               = true) by (vm_compute; reflexivity).
  assert (Ht : holds (returned_from_stop Timer)
                 (outcome 32 linux_codes sample_env firing_then_stop)
               = true) by (vm_compute; reflexivity).
  assert (Hw : holds (returned_from_stop DelayedWork)
                 (outcome 32 linux_codes sample_env until_work_stopped)
               = true) by (vm_compute; reflexivity).
  assert (Hc : is_some (outcome 32 linux_codes sample_env
                 (firing_then_stop ++ [Elapse sample_env; Control])%list)
               = true) by (vm_compute; reflexivity).
  destruct (stop_is_barrier 32 linux_codes Alarm sample_env
              until_alarm_stopped Ha) as [Hqa _].
  destruct (stop_is_barrier 32 linux_codes Timer sample_env
              firing_then_stop Ht) as [Hqt Hafter].
  destruct (stop_is_barrier 32 linux_codes DelayedWork sample_env
              until_work_stopped Hw) as [Hqw _].
  destruct (Hafter [Elapse sample_env; Control] Hc) as [Hqt' _].
  split; [split; [exact Ha | exact Hqa] |].
  split; [| split; [exact Hw | exact Hqw]].
  split; [exact Ht |]. split; [exact Hqt |]. split; [exact Hc | exact Hqt'].
Defined.

(** While the handler is in flight my_timer_stop cannot return: the
    control thread has no step.  Once the handler has returned it can, and
    the log holds the one line of that firing. *)
Example stop_waits_for_firing :
  is_some (outcome 32 linux_codes sample_env unload_during_firing) = true
  /\ holds (stopped Timer) (outcome 32 linux_codes sample_env unload_during_firing) = false
  /\ is_some (outcome 32 linux_codes sample_env (unload_during_firing ++ [Control])%list)
     = false
  /\ option_map (fun s => console (kern s))
       (outcome 32 linux_codes sample_env firing_then_stop)
     = Some ["[mysuspend] my_timer_handler: 1351555201" ++ newline].
Proof. repeat split; vm_compute; reflexivity. Qed.

(** A stop operation returns as soon as no callback of its activity is in
    flight. *)
Lemma stop_returns_when_idle (f : facility) (K : kernel) (d : list call) :
  running (objs K f) = None ->
  exists K',
    step 0 linux_codes Control {| kern := K; control := activity_stop f; done := d |}
    = Some {| kern := K'; control := Ret tt;
              done := (d ++ trace (clock K) (activity_stop f))%list |}
    /\ quiescent f K' = true.
Proof.
  intros Hrun.
  destruct f; simpl; unfold cancel_sync; rewrite Hrun;
    eexists; (split; [reflexivity |]); reflexivity.
Qed.

(** * Further properties of the module *)

(** ** Clock reads and expiries *)

(** X1: get_my_seconds makes one call and returns the seconds as an unsigned
    long: always within range, equal to tv_sec when that is in range, and
    wrapped to the top of the range when tv_sec is negative. *)
Theorem get_my_seconds_range (BITS_PER_LONG : Z) (o : env) :
  0 <= BITS_PER_LONG ->
  trace o (get_my_seconds BITS_PER_LONG) = [getnstimeofday]
  /\ 0 <= result o (get_my_seconds BITS_PER_LONG) < 2 ^ BITS_PER_LONG
  /\ (0 <= tv_sec o < 2 ^ BITS_PER_LONG ->
      result o (get_my_seconds BITS_PER_LONG) = tv_sec o)
  /\ (- 2 ^ BITS_PER_LONG <= tv_sec o < 0 ->
      result o (get_my_seconds BITS_PER_LONG) = tv_sec o + 2 ^ BITS_PER_LONG).
Proof.
  intros HL. simpl. unfold wrap.
  assert (Hm : 0 < 2 ^ BITS_PER_LONG) by (apply Z.pow_pos_nonneg; lia).
  repeat split.
  - apply Z.mod_pos_bound. exact Hm.
  - apply Z.mod_pos_bound. exact Hm.
  - intros H. apply Z.mod_small. exact H.
  - intros H.
    rewrite <- (Z.mod_add _ 1 _) by lia.
    rewrite Z.mul_1_l. apply Z.mod_small. lia.
Qed.

Lemma get_my_seconds_range_witness :
  result sample_env (get_my_seconds 32) = 1351555200
  /\ result wrapping_env (get_my_seconds 32) = 4294967295.
Proof.
  assert (H32 : 0 <= 32) by lia.
  split.
  - destruct (get_my_seconds_range 32 sample_env H32) as (_ & _ & H & _).
    apply H. simpl. lia.
  - destruct (get_my_seconds_range 32 wrapping_env H32) as (_ & _ & _ & H).
    apply H. simpl. lia.
Defined.

(** X2: my_timer_start arms the timer at an expiry that is a valid unsigned
    long and lies exactly msecs_to_jiffies(1000) ticks after the present
    jiffies in the arithmetic of unsigned long, also when jiffies is about
    to wrap around. *)
Theorem timer_expiry_wraps (BITS_PER_LONG : Z) (o : env) :
  0 <= BITS_PER_LONG ->
  0 <= k_msecs_to_jiffies o 1000 < 2 ^ BITS_PER_LONG ->
  filter is_arm (trace o (my_timer_start BITS_PER_LONG)) =
    [mod_timer (expiry BITS_PER_LONG o Timer)]
  /\ 0 <= expiry BITS_PER_LONG o Timer < 2 ^ BITS_PER_LONG
  /\ (expiry BITS_PER_LONG o Timer - jiffies o) mod 2 ^ BITS_PER_LONG =
     k_msecs_to_jiffies o 1000.
Proof.
  intros HL Hd.
  assert (Hm : 0 < 2 ^ BITS_PER_LONG) by (apply Z.pow_pos_nonneg; lia).
  split; [reflexivity |].
  unfold expiry, wrap.
  change (1 * MSEC_PER_SEC) with 1000.
  split.
  - apply Z.mod_pos_bound. exact Hm.
  - rewrite Zminus_mod_idemp_l.
    replace (jiffies o + k_msecs_to_jiffies o 1000 - jiffies o)
      with (k_msecs_to_jiffies o 1000) by lia.
    apply Z.mod_small. exact Hd.
Qed.

Lemma timer_expiry_wraps_witness :
  jiffies wrapping_env = 4294967246
  /\ expiry 32 wrapping_env Timer = 50
  /\ (expiry 32 wrapping_env Timer - jiffies wrapping_env) mod 2 ^ 32 = 100.
Proof.
  assert (H32 : 0 <= 32) by lia.
  assert (Hd : 0 <= k_msecs_to_jiffies wrapping_env 1000 < 2 ^ 32)
    by (change (k_msecs_to_jiffies wrapping_env 1000) with 100; lia).
  destruct (timer_expiry_wraps 32 wrapping_env H32 Hd) as (_ & _ & H).
  split; [reflexivity | split; [reflexivity | exact H]].
Defined.

(** ** What the upcalls do *)

(** X3: a handler acts on no kernel object but its own activity, which it arms
    once; the pm handler and the two early suspend handlers act on no
    kernel object at all. *)
Theorem upcall_effects (BITS_PER_LONG : Z) (N : notifier_codes)
    (o : env) (u : upcall) :
  effects o (upcall_prog BITS_PER_LONG N u) =
  match u with
  | Expired f _ => [arm_call BITS_PER_LONG o f]
  | _ => []
  end.
Proof.
  destruct u as [f arg | nfb action data | h | h]; simpl.
  - destruct f; reflexivity.
  - unfold my_pm_handler.
    destruct ((action =? PM_HIBERNATION_PREPARE N)
              || (action =? PM_SUSPEND_PREPARE N));
      [| destruct ((action =? PM_POST_HIBERNATION N)
                   || (action =? PM_POST_SUSPEND N))];
      reflexivity.
  - reflexivity.
  - reflexivity.
Qed.

Lemma log_lines_app (l r : list call) :
  log_lines (l ++ r)%list = (log_lines l ++ log_lines r)%list.
Proof.
  induction l as [| c l IH]; simpl; [reflexivity |].
  destruct c; simpl; now rewrite ?IH.
Qed.

Lemma upcall_log_lines (BITS_PER_LONG : Z) (N : notifier_codes)
    (o : env) (u : upcall) :
  List.length (log_lines (trace o (upcall_prog BITS_PER_LONG N u))) =
  if logged N u then 1%nat else 0%nat.
Proof.
  destruct u as [f arg | nfb action data | h | h]; simpl.
  - destruct f; reflexivity.
  - unfold my_pm_handler.
    destruct (action =? PM_HIBERNATION_PREPARE N);
      destruct (action =? PM_SUSPEND_PREPARE N);
      destruct (action =? PM_POST_HIBERNATION N);
      destruct (action =? PM_POST_SUSPEND N); reflexivity.
  - reflexivity.
  - reflexivity.
Qed.

(** X4: over one life of the module the log receives exactly one line for each
    firing, each early suspend or resume and each pm event of the four
    known codes, and no other line: my_init, my_exit and a pm event of any
    other code write nothing. *)
Theorem one_line_per_upcall (BITS_PER_LONG : Z) (N : notifier_codes)
    (o_init : env) (ups : list (env * upcall)) (o_exit : env) :
  List.length (log_lines (lifetime BITS_PER_LONG N o_init ups o_exit)) =
  List.length (filter (fun ou => logged N (snd ou)) ups).
Proof.
  unfold lifetime. rewrite !log_lines_app, !length_app.
  rewrite trace_my_init, trace_my_exit. simpl.
  rewrite Nat.add_0_r.
  induction ups as [| [o u] ups IH]; simpl; [reflexivity |].
  rewrite log_lines_app, length_app, IH, upcall_log_lines.
  destruct (logged N u); reflexivity.
Qed.

Lemma upcall_arms (BITS_PER_LONG : Z) (N : notifier_codes)
    (f : facility) (o : env) (u : upcall) :
  List.length (filter (arms f) (trace o (upcall_prog BITS_PER_LONG N u))) =
  if is_firing f u then 1%nat else 0%nat.
Proof.
  destruct u as [g arg | nfb action data | h | h]; simpl.
  - destruct f, g; reflexivity.
  - unfold my_pm_handler.
    destruct ((action =? PM_HIBERNATION_PREPARE N)
              || (action =? PM_SUSPEND_PREPARE N));
      [| destruct ((action =? PM_POST_HIBERNATION N)
                   || (action =? PM_POST_SUSPEND N))];
      reflexivity.
  - reflexivity.
  - reflexivity.
Qed.

(** X5: over one life of the module each activity is armed once by my_init and
    once more by each of its own firings, and by nothing else. *)
Theorem armed_once_per_firing (BITS_PER_LONG : Z) (N : notifier_codes)
    (f : facility) (o_init : env) (ups : list (env * upcall)) (o_exit : env) :
  List.length (filter (arms f) (lifetime BITS_PER_LONG N o_init ups o_exit)) =
  S (List.length (filter (fun ou => is_firing f (snd ou)) ups)).
Proof.
  unfold lifetime. rewrite !filter_app, !length_app.
  rewrite trace_my_exit.
  replace (List.length
             (filter (arms f) (trace o_init (my_init BITS_PER_LONG))))
    with 1%nat by (destruct f; reflexivity).
  replace (List.length
             (filter (arms f)
                [alarm_cancel; del_timer_sync; cancel_delayed_work_sync;
                 unregister_pm_notifier; unregister_early_suspend;
                 wake_unlock; wake_lock_destroy]))
    with 0%nat by reflexivity.
  rewrite Nat.add_0_r. simpl. f_equal.
  induction ups as [| [o u] ups IH]; simpl; [reflexivity |].
  rewrite filter_app, length_app, IH, upcall_arms.
  destruct (is_firing f u); reflexivity.
Qed.

Lemma upcall_calls (BITS_PER_LONG : Z) (N : notifier_codes)
    (o : env) (u : upcall) :
  Forall (fun c => owner c = None \/ is_arm c = true)
    (trace o (upcall_prog BITS_PER_LONG N u)).
Proof.
  assert (Hall : forall l : list call,
             forallb (fun c => negb (is_owned c) || is_arm c) l = true ->
             Forall (fun c => owner c = None \/ is_arm c = true) l).
  { intros l H. rewrite forallb_forall in H. apply Forall_forall.
    intros c Hin. apply H in Hin. unfold is_owned in Hin.
    destruct (owner c); simpl in Hin; auto. }
  apply Hall.
  destruct u as [f arg | nfb action data | h | h]; simpl.
  - destruct f; reflexivity.
  - unfold my_pm_handler.
    destruct ((action =? PM_HIBERNATION_PREPARE N)
              || (action =? PM_SUSPEND_PREPARE N));
      [| destruct ((action =? PM_POST_HIBERNATION N)
                   || (action =? PM_POST_SUSPEND N))];
      reflexivity.
  - reflexivity.
  - reflexivity.
Qed.

Lemma count_upcalls (BITS_PER_LONG : Z) (N : notifier_codes)
    (c : call) (ups : list (env * upcall)) :
  owner c <> None -> is_arm c = false ->
  count c
    (flat_map (fun ou => trace (fst ou) (upcall_prog BITS_PER_LONG N (snd ou)))
       ups) = 0%nat.
Proof.
  intros Hown Harm. unfold count. apply count_occ_not_In.
  rewrite in_flat_map. intros ([o u] & _ & Hin). simpl in Hin.
  pose proof (upcall_calls BITS_PER_LONG N o u) as H.
  rewrite Forall_forall in H. destruct (H c Hin); congruence.
Qed.

(** X6: over one life of the module, whatever upcalls happen, each
    initialisation, registration, unregistration and cancel is called
    exactly once: the initialisations and registrations by my_init, the
    cancels and unregistrations by my_exit, none of them by a handler.  In
    particular a re-arming never initialises the alarm again. *)
Theorem one_time_calls_once (BITS_PER_LONG : Z) (N : notifier_codes)
    (o_init : env) (ups : list (env * upcall)) (o_exit : env) :
  Forall
    (fun c =>
       count c (lifetime BITS_PER_LONG N o_init ups o_exit) = 1%nat
       /\ (count c (trace o_init (my_init BITS_PER_LONG))
           + count c (trace o_exit my_exit) = 1)%nat)
    one_time_calls.
Proof.
  unfold one_time_calls.
  repeat (apply Forall_cons;
          [cbv beta; split;
           [unfold lifetime; rewrite !count_app;
            rewrite (count_upcalls BITS_PER_LONG N _ ups)
              by (simpl; first [discriminate | reflexivity]);
            reflexivity
           | reflexivity] |]).
  apply Forall_nil.
Qed.

(** ** The module under the interleaving semantics *)

(** X7: loading never waits: from boot my_init runs to its end in 14 calls,
    whatever the kernel answers, and leaves the three activities armed one
    period ahead, nothing logged, and my_exit as what remains to run. *)
Theorem my_init_arms_all (BITS_PER_LONG : Z) (N : notifier_codes) (o : env) :
  exists s,
    outcome BITS_PER_LONG N o (repeat Control 14) = Some s
    /\ (forall f, armed (objs (kern s) f) = Some (expiry BITS_PER_LONG o f)
                  /\ running (objs (kern s) f) = None)
    /\ console (kern s) = []
    /\ done s = trace o (my_init BITS_PER_LONG)
    /\ control s = my_exit.
Proof.
  unfold outcome. cbn. unfold register.
  destruct (status o register_pm_notifier <? 0); cbn;
    destruct (status o (register_early_suspend
                          "EARLY_SUSPEND_LEVEL_DISABLE_FB") <? 0); cbn;
    (eexists; split; [reflexivity |]);
    (split; [intros f; destruct f; split; reflexivity |]);
    repeat split; reflexivity.
Qed.

(** X8: a firing that runs to its end re-arms: from any kernel in which [f] is
    armed and its handler is not running, the handler is never made to
    wait; when it has returned, [f] is armed again one period after the
    time of the firing, the log has grown by the one line of that firing,
    and the other activities and the control thread are untouched. *)
Theorem firing_rearms (BITS_PER_LONG : Z) (N : notifier_codes)
    (f : facility) (arg : Z) (K : kernel) (ctl : prog unit) (d : list call) :
  is_some (armed (objs K f)) = true ->
  is_some (running (objs K f)) = false ->
  exists s',
    run_sched BITS_PER_LONG N (firing_schedule f arg)
      {| kern := K; control := ctl; done := d |} = Some s'
    /\ control s' = ctl /\ done s' = d
    /\ armed (objs (kern s') f) = Some (expiry BITS_PER_LONG (clock K) f)
    /\ running (objs (kern s') f) = None
    /\ console (kern s') =
       (console K ++ [firing_line BITS_PER_LONG (clock K) f])%list
    /\ forall g, g <> f -> objs (kern s') g = objs K g.
Proof.
  intros Harm Hrun.
  destruct (armed (objs K f)) as [e |] eqn:Ea; [| discriminate].
  destruct (running (objs K f)) as [p |] eqn:Er; [discriminate |].
  destruct f; unfold firing_schedule; cbn -[wrap fmt_lu];
    rewrite Ea, Er; cbn -[wrap fmt_lu];
    (eexists; split; [reflexivity |]);
    repeat split; try reflexivity;
    intros g Hg; destruct g; try reflexivity; congruence.
Qed.

Lemma firing_rearms_witness :
  exists s',
    run_sched 32 linux_codes (firing_schedule Timer 0)
      {| kern := armed_kernel; control := Ret tt; done := [] |} = Some s'
    /\ armed (objs (kern s') Timer) = Some (jiffies sample_env + 100)
    /\ console (kern s') =
       ["[mysuspend] my_timer_handler: 1351555200" ++ newline].
Proof.
  destruct (firing_rearms 32 linux_codes Timer 0 armed_kernel (Ret tt) [] eq_refl eq_refl)
    as (s' & Hrun & _ & _ & Harm & _ & Hcon & _).
  exists s'. repeat split; assumption.
Defined.

(** ** Resources outlive the activities *)

Section Held.

Variable BITS_PER_LONG : Z.
Variable N : notifier_codes.
Variable x : component.
Variable f : facility.




End Held.





(** ** After unload *)





Section Unload.

Variable BITS_PER_LONG : Z.
Variable N : notifier_codes.


Variable x : component.
Hypothesis Hx : x = SuspendResumeObserver \/ x = VisibilityObserver.




End Unload.




(** An event reaches the module only while its observer is registered:
    after my_init a pm event and an early suspend are each logged; once
    my_exit has returned the same events can no longer be delivered. *)
Example events_reach_registered_observers :
  console_of (outcome 32 linux_codes sample_env events_then_unload) =
    Some ["[mysuspend] my_pm_handler: suspend" ++ newline;
          "[mysuspend] my_early_suspend_handler" ++ newline]
  /\ is_some (outcome 32 linux_codes sample_env
                (events_then_unload ++ [Deliver (PmEvent 0 3 0)])%list) = false
  /\ is_some (outcome 32 linux_codes sample_env
                (events_then_unload ++ [Deliver (EarlySuspend 0)])%list) = false
  /\ is_some (outcome 32 linux_codes sample_env [Deliver (LateResume 0)])
     = false.
Proof. repeat split; vm_compute; reflexivity. Qed.

(** ** Loading and unloading are silent *)

Lemma exec_call_console (K K' : kernel) (c : call) (r : Z) :
  exec_call K c = Some (r, K') ->
  log_lines [c] = [] -> console K' = console K.
Proof.
  destruct c; simpl; try discriminate;
    try (intros H _; injection H as _ <-; reflexivity);
    try (unfold cancel_sync;
         match goal with
         | |- context [running ?y] => destruct (running y)
         end; [discriminate |];
         intros H _; injection H as _ <-; reflexivity);
    try (unfold register; destruct (_ <? 0);
         intros H _; injection H as _ <-; reflexivity).
  destruct (is_some (armed (objs K DelayedWork)));
    intros H _; injection H as _ <-; reflexivity.
Qed.

Lemma lifecycle_never_prints (BITS_PER_LONG : Z) :
  never_prints (module_lifecycle BITS_PER_LONG).
Proof. simpl. repeat (split; intros); reflexivity. Qed.

Lemma run_silent (BITS_PER_LONG : Z) (N : notifier_codes)
    (sched : list choice) :
  forall s s',
    run_sched BITS_PER_LONG N sched s = Some s' ->
    forallb (fun ch => negb (is_expire ch) && negb (is_deliver ch)) sched
      = true ->
    silent s = true -> never_prints (control s) ->
    silent s' = true.
Proof.
  induction sched as [| ch rest IH]; intros s s' Hrun Hno Hsil Hnp;
    simpl in Hrun, Hno.
  - injection Hrun as <-. exact Hsil.
  - apply andb_prop in Hno. destruct Hno as [Hch Hno].
    destruct (step BITS_PER_LONG N ch s) as [s1 |] eqn:Est; [| discriminate].
    assert (Hidle : forall g, running (objs (kern s) g) = None).
    { unfold silent in Hsil.
      apply andb_prop in Hsil. destruct Hsil as [Hsil H3].
      apply andb_prop in Hsil. destruct Hsil as [Hsil H2].
      apply andb_prop in Hsil. destruct Hsil as [_ H1].
      intros g; destruct g;
        match goal with
        | |- running ?y = None => destruct (running y); [discriminate | easy]
        end. }
    destruct ch as [o | g arg | g | u |]; simpl in Est, Hch;
      try discriminate.
    + injection Est as <-. apply (IH _ s' Hrun Hno); assumption.
    + rewrite (Hidle g) in Est. discriminate.
    + destruct (control s) as [a | c k] eqn:Ectl; [discriminate |].
      destruct (exec_call (kern s) c) as [[r K'] |] eqn:Eex; [| discriminate].
      injection Est as <-. destruct Hnp as [Hc Hk].
      apply (IH _ s' Hrun Hno); [| apply Hk].
      unfold silent in *. simpl kern.
      rewrite (exec_call_console _ _ _ _ Eex Hc).
      rewrite !(exec_call_running _ _ _ _ _ Eex). exact Hsil.
Qed.

(** X11: my_init and my_exit write nothing to the log themselves: in every
    interleaving of one life of the module in which no timer, work or
    alarm expires and no event is delivered to an observer, the log stays
    empty and no handler runs. *)
Theorem silent_without_firing (BITS_PER_LONG : Z) (N : notifier_codes)
    (o : env) (sched : list choice) :
  is_some (outcome BITS_PER_LONG N o sched) = true ->
  forallb (fun ch => negb (is_expire ch) && negb (is_deliver ch)) sched
    = true ->
  holds silent (outcome BITS_PER_LONG N o sched) = true.
Proof.
  unfold outcome.
  destruct (run_sched BITS_PER_LONG N sched
              (boot o (module_lifecycle BITS_PER_LONG))) as [s |] eqn:Hrun;
    [| discriminate].
  intros _ Hno. simpl.
  apply (run_silent BITS_PER_LONG N sched _ s Hrun Hno);
    [reflexivity | apply lifecycle_never_prints].
Qed.

Lemma silent_without_firing_witness :
  is_some (outcome 32 linux_codes sample_env (repeat Control 21)) = true
  /\ holds finished (outcome 32 linux_codes sample_env (repeat Control 21))
     = true
  /\ holds silent (outcome 32 linux_codes sample_env (repeat Control 21))
     = true.
Proof.
  assert (Hs : is_some (outcome 32 linux_codes sample_env (repeat Control 21))
               = true) by (vm_compute; reflexivity).
  split; [exact Hs |].
  split; [vm_compute; reflexivity |].
  apply (silent_without_firing 32 linux_codes sample_env (repeat Control 21)
           Hs).
  reflexivity.
Defined.

(** ** Unloading never deadlocks *)

Lemma exec_call_total (K : kernel) (c : call) :
  cancel_target c = None -> exists r K', exec_call K c = Some (r, K').
Proof.
  destruct c; simpl; try discriminate; intros _; eauto.
  destruct (is_some (armed (objs K DelayedWork))); eauto.
Qed.

Lemma exec_call_total_idle (K : kernel) (c : call) :
  (forall g, running (objs K g) = None) ->
  exists r K', exec_call K c = Some (r, K').
Proof.
  intros Hidle.
  destruct (cancel_target c) as [f |] eqn:Ec;
    [| apply exec_call_total; exact Ec].
  destruct c; simpl in Ec; try discriminate; simpl; unfold cancel_sync;
    rewrite Hidle; eauto.
Qed.

Section Progress.

Variable BITS_PER_LONG : Z.
Variable N : notifier_codes.

Lemma handler_never_waits (g : facility) (arg : Z) :
  all_calls (fun c => cancel_target c = None)
    (activity_handler BITS_PER_LONG g arg).
Proof. destruct g; simpl; repeat (split; intros); reflexivity. Qed.

Lemma step_never_wait (ch : choice) (s s' : system) :
  step BITS_PER_LONG N ch s = Some s' ->
  callbacks_never_wait (kern s) -> callbacks_never_wait (kern s').
Proof.
  intros Hstep Hnw.
  destruct ch as [o | g arg | g | u |]; simpl in Hstep.
  - injection Hstep as <-. exact Hnw.
  - destruct (armed (objs (kern s) g)); [| discriminate].
    destruct (running (objs (kern s) g)); [discriminate |].
    injection Hstep as <-. intros g' p. simpl kern.
    destruct (facility_eqb g' g) eqn:E.
    + apply facility_eqb_eq in E. subst g'. rewrite set_obj_same. simpl.
      intros H. injection H as <-. apply handler_never_waits.
    + apply facility_eqb_neq in E. rewrite set_obj_other by exact E.
      apply Hnw.
  - destruct (running (objs (kern s) g)) as [p |] eqn:Er; [| discriminate].
    destruct p as [a | c k].
    + injection Hstep as <-. intros g' p. simpl kern.
      destruct (facility_eqb g' g) eqn:E.
      * apply facility_eqb_eq in E. subst g'. rewrite set_obj_same. simpl.
        discriminate.
      * apply facility_eqb_neq in E. rewrite set_obj_other by exact E.
        apply Hnw.
    + destruct (exec_call (kern s) c) as [[r K'] |] eqn:Eex; [| discriminate].
      injection Hstep as <-. intros g' p. simpl kern.
      destruct (facility_eqb g' g) eqn:E.
      * apply facility_eqb_eq in E. subst g'. rewrite set_obj_same. simpl.
        intros H. injection H as <-. apply (Hnw g _ Er).
      * apply facility_eqb_neq in E. rewrite set_obj_other by exact E.
        rewrite (exec_call_running _ _ _ _ g' Eex). apply Hnw.
  - destruct (deliver BITS_PER_LONG N u (kern s)) as [K' |] eqn:Ed;
      [| discriminate].
    destruct (step_deliver BITS_PER_LONG N u s s') as (Ho & _ & _ & _).
    { simpl. rewrite Ed. exact Hstep. }
    unfold callbacks_never_wait. rewrite Ho. exact Hnw.
  - destruct (control s) as [a | c k]; [discriminate |].
    destruct (exec_call (kern s) c) as [[r K'] |] eqn:Eex; [| discriminate].
    injection Hstep as <-. intros g' p. simpl kern.
    rewrite (exec_call_running _ _ _ _ g' Eex). apply Hnw.
Qed.

Lemma run_never_wait (sched : list choice) :
  forall s s',
    run_sched BITS_PER_LONG N sched s = Some s' ->
    callbacks_never_wait (kern s) -> callbacks_never_wait (kern s').
Proof.
  induction sched as [| ch rest IH]; intros s s' Hrun Hinv; simpl in Hrun.
  - injection Hrun as <-. exact Hinv.
  - destruct (step BITS_PER_LONG N ch s) as [s1 |] eqn:Est; [| discriminate].
    apply (IH s1 s' Hrun). apply (step_never_wait ch s s1 Est Hinv).
Qed.

(** A callback in flight can always be run to its end, and doing so
    starts no other callback. *)
Lemma drain_callback (g : facility) (p : prog unit) :
  forall K ctl d,
    running (objs K g) = Some p ->
    all_calls (fun c => cancel_target c = None) p ->
    exists n s',
      run_sched BITS_PER_LONG N (repeat (Callback g) n)
        {| kern := K; control := ctl; done := d |} = Some s'
      /\ control s' = ctl /\ done s' = d
      /\ running (objs (kern s') g) = None
      /\ forall g', g' <> g ->
                    running (objs (kern s') g') = running (objs K g').
Proof.
  induction p as [a | c k IH]; intros K ctl d Hrun Hall.
  - exists 1%nat. eexists. simpl. rewrite Hrun. split; [reflexivity |].
    simpl. repeat split.
    + now rewrite facility_eqb_refl.
    + intros g' Hg. apply facility_eqb_neq in Hg. now rewrite Hg.
  - destruct Hall as [Hc Hk].
    destruct (exec_call_total K c Hc) as (r & K' & Eex).
    assert (Hnext : running
                      (objs (set_obj g {| armed := armed (objs K' g);
                                          running := Some (k r) |} K') g)
                    = Some (k r))
      by (now rewrite set_obj_same).
    destruct (IH r _ ctl d Hnext (Hk r))
      as (n & s' & Hrun' & Hctl & Hd & Hnone & Hother).
    exists (S n), s'. simpl. rewrite Hrun, Eex.
    split; [exact Hrun' |]. repeat split; try assumption.
    intros g' Hg. rewrite (Hother g' Hg).
    rewrite set_obj_other by exact Hg.
    apply (exec_call_running _ _ _ _ g' Eex).
Qed.

(** With no callback in flight the control thread can run to its end. *)
Lemma finish_control (p : prog unit) :
  forall K d,
    (forall g, running (objs K g) = None) ->
    exists n s',
      run_sched BITS_PER_LONG N (repeat Control n)
        {| kern := K; control := p; done := d |} = Some s'
      /\ finished s' = true.
Proof.
  induction p as [a | c k IH]; intros K d Hidle.
  - exists 0%nat. eexists. split; reflexivity.
  - destruct (exec_call_total_idle K c Hidle) as (r & K' & Eex).
    destruct (IH r K' (d ++ [c])%list) as (n & s' & Hrun & Hfin).
    { intros g. rewrite (exec_call_running _ _ _ _ g Eex). apply Hidle. }
    exists (S n), s'. simpl. rewrite Eex. split; assumption.
Qed.

Lemma drain_one (g : facility) (s : system) :
  callbacks_never_wait (kern s) ->
  exists sched s',
    run_sched BITS_PER_LONG N sched s = Some s'
    /\ control s' = control s
    /\ callbacks_never_wait (kern s')
    /\ running (objs (kern s') g) = None
    /\ forall g', g' <> g ->
                  running (objs (kern s') g') = running (objs (kern s) g').
Proof.
  intros Hnw. destruct s as [K ctl d]. simpl in *.
  destruct (running (objs K g)) as [p |] eqn:Er.
  - destruct (drain_callback g p K ctl d Er (Hnw g p Er))
      as (n & s' & Hrun & Hctl & _ & Hnone & Hother).
    exists (repeat (Callback g) n), s'.
    repeat split; try assumption.
    apply (run_never_wait _ _ _ Hrun). exact Hnw.
  - exists [], {| kern := K; control := ctl; done := d |}.
    simpl. repeat split; auto.
Qed.

Lemma can_finish (s : system) :
  callbacks_never_wait (kern s) ->
  exists sched s',
    run_sched BITS_PER_LONG N sched s = Some s' /\ finished s' = true.
Proof.
  intros Hnw.
  destruct (drain_one DelayedWork s Hnw)
    as (sc1 & s1 & Hr1 & Hc1 & Hnw1 & Hn1 & Ho1).
  destruct (drain_one Timer s1 Hnw1)
    as (sc2 & s2 & Hr2 & Hc2 & Hnw2 & Hn2 & Ho2).
  destruct (drain_one Alarm s2 Hnw2)
    as (sc3 & s3 & Hr3 & Hc3 & Hnw3 & Hn3 & Ho3).
  assert (Hidle : forall g, running (objs (kern s3) g) = None).
  { intros g. destruct g.
    - rewrite Ho3 by discriminate. rewrite Ho2 by discriminate. exact Hn1.
    - rewrite Ho3 by discriminate. exact Hn2.
    - exact Hn3. }
  destruct s3 as [K3 ctl3 d3]. simpl in Hidle.
  destruct (finish_control ctl3 K3 d3 Hidle) as (n & s' & Hr4 & Hfin).
  exists (sc1 ++ sc2 ++ sc3 ++ repeat Control n)%list, s'.
  split; [| exact Hfin].
  rewrite run_sched_app, Hr1, run_sched_app, Hr2, run_sched_app, Hr3.
  exact Hr4.
Qed.

End Progress.

(** X12: the module can always be unloaded: from every state that a life of the
    module can reach, with handlers in flight or not, some continuation
    lets the handlers return and my_exit run to its end; no cancel waits
    for ever. *)
Theorem unload_never_deadlocks (BITS_PER_LONG : Z) (N : notifier_codes)
    (o : env) (sched : list choice) :
  is_some (outcome BITS_PER_LONG N o sched) = true ->
  exists sched',
    holds finished (outcome BITS_PER_LONG N o (sched ++ sched')%list) = true.
Proof.
  unfold outcome.
  destruct (run_sched BITS_PER_LONG N sched
              (boot o (module_lifecycle BITS_PER_LONG))) as [s |] eqn:Hrun;
    [| discriminate].
  intros _.
  assert (Hnw : callbacks_never_wait (kern s)).
  { apply (run_never_wait BITS_PER_LONG N sched _ _ Hrun).
    intros g p. simpl. discriminate. }
  destruct (can_finish BITS_PER_LONG N s Hnw) as (sched' & s' & Hrun' & Hfin).
  exists sched'. rewrite run_sched_app, Hrun, Hrun'. exact Hfin.
Qed.

Lemma unload_never_deadlocks_witness :
  is_some (outcome 32 linux_codes sample_env (unload_during_firing ++ [Control])%list)
    = false
  /\ exists sched',
       holds finished
         (outcome 32 linux_codes sample_env (unload_during_firing ++ sched')%list) = true.
Proof.
  split; [vm_compute; reflexivity |].
  apply (unload_never_deadlocks 32 linux_codes sample_env
           unload_during_firing).
  vm_compute. reflexivity.
Defined.
